(** * check-jenkins-build-time: a shallow embedding and its properties

    The plugin lives in one Go file, [lib/check_jenkins_build_time.go].
    This development embeds

    - the [jsonTime] adapter ([MarshalJSON], [UnmarshalJSON]) together with
      the parts of Go's [strconv], [strings] and [time] packages it calls,
    - [build], [isUnfinished] and [filterUnfinishedTooLongBuilds],
    - [run], with the process environment (wall clock, HTTP endpoint)
      threaded as an explicit world,

    and then states and proves the properties of the specification. *)

From Stdlib Require Import ZArith List String Ascii Bool Lia.
From stdpp Require Import list.
Import ListNotations.

Local Open Scope Z_scope.

(** ** Machine integers *)

Module int64.
Definition min : Z := - 2 ^ 63.
Definition max : Z := 2 ^ 63 - 1.
(** Two's complement wrap-around of a mathematical integer. *)
Definition wrap (z : Z) : Z := (z + 2 ^ 63) mod 2 ^ 64 - 2 ^ 63.
Definition inRange (z : Z) : Prop := min <= z <= max.
Definition inRangeb (z : Z) : bool := (min <=? z) && (z <=? max).
End int64.

Module uint64.
Definition max : Z := 2 ^ 64 - 1.
Definition wrap (z : Z) : Z := z mod 2 ^ 64.
End uint64.

(** Go strings and byte slices are sequences of bytes; [string] is a
    sequence of [ascii], each an 8-bit value. *)
Definition byteVal (c : ascii) : Z := Z.of_N (N_of_ascii c).
Definition byteOf (z : Z) : ascii := ascii_of_N (Z.to_N z).

(** The double quote, byte 34. *)
Definition quote : ascii := byteOf 34.

(** ** Package strconv (base 10, bit size 64) *)

Module strconv.

Inductive errKind := ErrSyntax | ErrRange.

Record NumError := mkNumError { Func : string; Num : string; Err : errKind }.

Definition syntaxError (fn str : string) : NumError := mkNumError fn str ErrSyntax.
Definition rangeError (fn str : string) : NumError := mkNumError fn str ErrRange.

Definition fnParseUint : string := "ParseUint".
Definition fnParseInt : string := "ParseInt".

Definition base : Z := 10.
(** [cutoff] is the smallest number such that [cutoff * base > maxUint64]. *)
Definition cutoff : Z := uint64.max / 10 + 1.
Definition maxVal : Z := 2 ^ 64 - 1.

(** [lower(c) = c | ('x' - 'X')]. *)
Definition lower (c : Z) : Z := Z.lor c 32.

(** The digit a byte stands for, if any: ['0'..'9'], or a letter (which
    is worth at least 10 and is rejected against the base afterwards). *)
Definition digitOf (c : Z) : option Z :=
  if (48 <=? c) && (c <=? 57) then Some (c - 48)
  else if (97 <=? lower c) && (lower c <=? 122) then Some (lower c - 97 + 10)
  else None.

(** The loop [for _, c := range []byte(s)] of [ParseUint]; [s0] is the
    whole argument, kept for the error value. *)
Fixpoint parseUintLoop (s0 s : string) (n : Z) : Z * option NumError :=
  match s with
  | EmptyString => (n, None)
  | String c s' =>
      match digitOf (byteVal c) with
      | None => (0, Some (syntaxError fnParseUint s0))
      | Some d =>
          if d >=? base then (0, Some (syntaxError fnParseUint s0))
          else if n >=? cutoff then (maxVal, Some (rangeError fnParseUint s0))
          else
            let n' := uint64.wrap (n * base) in
            let n1 := uint64.wrap (n' + d) in
            if (n1 <? n') || (n1 >? maxVal)
            then (maxVal, Some (rangeError fnParseUint s0))
            else parseUintLoop s0 s' n1
      end
  end.

Definition ParseUint (s : string) : Z * option NumError :=
  match s with
  | EmptyString => (0, Some (syntaxError fnParseUint s))
  | _ => parseUintLoop s s 0
  end.

Definition ParseInt (s : string) : Z * option NumError :=
  match s with
  | EmptyString => (0, Some (syntaxError fnParseInt s))
  | String c0 rest =>
      let s0 := s in
      let '(neg, s) :=
        if Ascii.eqb c0 "+" then (false, rest)
        else if Ascii.eqb c0 "-" then (true, rest)
        else (false, s) in
      let '(un, err) := ParseUint s in
      match err with
      | Some (mkNumError _ _ ErrSyntax) => (0, Some (mkNumError fnParseInt s0 ErrSyntax))
      | _ =>
          let cutoff := 2 ^ 63 in
          if negb neg && (un >=? cutoff) then (cutoff - 1, Some (rangeError fnParseInt s0))
          else if neg && (un >? cutoff) then (- cutoff, Some (rangeError fnParseInt s0))
          else
            let n := int64.wrap un in
            (if neg then int64.wrap (- n) else n, None)
      end
  end.

(** What [ParseInt] makes of the result of [ParseUint], once the sign is
    taken off: the body of [ParseInt] after the call. *)
Definition signed (neg : bool) (s0 : string) (r : Z * option NumError) : Z * option NumError :=
  let '(un, err) := r in
  match err with
  | Some (mkNumError _ _ ErrSyntax) => (0, Some (mkNumError fnParseInt s0 ErrSyntax))
  | _ =>
      let cutoff := 2 ^ 63 in
      if negb neg && (un >=? cutoff) then (cutoff - 1, Some (rangeError fnParseInt s0))
      else if neg && (un >? cutoff) then (- cutoff, Some (rangeError fnParseInt s0))
      else
        let n := int64.wrap un in
        (if neg then int64.wrap (- n) else n, None)
  end.

(** [formatBits] for base 10: the digits of [u], least significant
    first, pushed in front of [acc].  A 64-bit magnitude has at most 20
    digits, which bounds the loop. *)
Fixpoint formatBits (fuel : nat) (u : Z) (acc : string) : string :=
  match fuel with
  | O => acc
  | S fuel' =>
      let acc' := String (byteOf (48 + u mod 10)) acc in
      if u <? 10 then acc' else formatBits fuel' (u / 10) acc'
  end.

Definition FormatInt (i : Z) : string :=
  if i <? 0 then String "-" (formatBits 20 (- i) EmptyString)
  else formatBits 20 i EmptyString.

End strconv.

(** ** Package strings *)

Module strings.
(** [strings.Replace(s, old, "", -1)] for a one-byte [old]: every
    occurrence of the byte is removed. *)
Fixpoint Replace (s : string) (old : ascii) : string :=
  match s with
  | EmptyString => EmptyString
  | String c s' =>
      if Ascii.eqb c old then Replace s' old else String c (Replace s' old)
  end.
End strings.

(** ** Package time *)

Module time.

(** A [Duration] is an int64 count of nanoseconds. *)
Definition Duration : Type := Z.
Definition Second : Duration := 1000000000.
Definition minDuration : Duration := int64.min.
Definition maxDuration : Duration := int64.max.

(** A [Time] is an instant: whole seconds since the Unix epoch and the
    nanoseconds within that second.  Readings of the wall clock and
    values made by [Unix] differ in Go by the monotonic reading only
    the former carry; [Sub] uses it only when both operands have one,
    which never happens against a decoded timestamp. *)
Record Time := mkTime { unixSec : Z; nsec : Z }.

Definition wf (t : Time) : Prop := 0 <= nsec t < 1000000000.

(** Exact position of an instant on the nanosecond axis. *)
Definition nanos (t : Time) : Z := unixSec t * 1000000000 + nsec t.

(** [time.Unix(sec, nsec)]. *)
Definition Unix (sec ns : Z) : Time :=
  if (ns <? 0) || (ns >=? 1000000000) then
    let n := ns ÷ 1000000000 in
    let sec := sec + n in
    let ns := ns - n * 1000000000 in
    if ns <? 0 then mkTime (sec - 1) (ns + 1000000000) else mkTime sec ns
  else mkTime sec ns.

(** The method [t.Unix()]. *)
Definition toUnix (t : Time) : Z := unixSec t.

(** The zero [Time], January 1, year 1, 00:00:00 UTC. *)
Definition zero : Time := mkTime (-62135596800) 0.

Definition Equal (t u : Time) : bool :=
  (unixSec t =? unixSec u) && (nsec t =? nsec u).

Definition Before (t u : Time) : bool :=
  (unixSec t <? unixSec u) || ((unixSec t =? unixSec u) && (nsec t <? nsec u)).

Definition Add (t : Time) (d : Duration) : Time :=
  let dsec := d ÷ 1000000000 in
  let ns := nsec t + Z.rem d 1000000000 in
  if ns >=? 1000000000 then mkTime (unixSec t + (dsec + 1)) (ns - 1000000000)
  else if ns <? 0 then mkTime (unixSec t + (dsec - 1)) (ns + 1000000000)
  else mkTime (unixSec t + dsec) ns.

(** [t.Sub(u)]: the difference computed in int64, replaced by the
    extreme durations when it does not bring [u] back to [t]. *)
Definition Sub (t u : Time) : Duration :=
  let d := int64.wrap ((unixSec t - unixSec u) * Second + (nsec t - nsec u)) in
  if Equal (Add u d) t then d
  else if Before t u then minDuration
  else maxDuration.

(** A mathematical number of nanoseconds forced into a [Duration]. *)
Definition saturate (z : Z) : Duration :=
  if z <? minDuration then minDuration
  else if z >? maxDuration then maxDuration
  else z.

(** The instant with its sub-second part dropped. *)
Definition truncSecond (t : Time) : Time := mkTime (unixSec t) 0.

End time.

(** ** Package checkers *)

Module checkers.
Inductive Status := OK | WARNING | CRITICAL | UNKNOWN.
Record Checker := mkChecker { Name : string; St : Status; Message : string }.
Definition NewChecker (st : Status) (msg : string) : Checker :=
  mkChecker EmptyString st msg.
Definition Unknown (msg : string) : Checker := NewChecker UNKNOWN msg.
End checkers.

(** ** The plugin *)

Record Opts := mkOpts {
  Scheme : string;
  Host : string;
  Port : Z;
  JobName : string;
  MaxJobNumber : Z;
  WarningSecond : Z;
  CritSecond : Z
}.

Definition jsonTime : Type := time.Time.

Definition toTime (t : jsonTime) : time.Time := t.

Definition MarshalJSON (t : jsonTime) : string * option strconv.NumError :=
  (strconv.FormatInt (time.toUnix (toTime t)), None).

(** The receiver is a pointer: the function returns the value the pointee
    holds afterwards together with the error. *)
Definition UnmarshalJSON (t : jsonTime) (s : string) : jsonTime * option strconv.NumError :=
  let r := strings.Replace s quote in
  let '(q, err) := strconv.ParseInt r in
  match err with
  | Some e => (t, Some e)
  | None => (time.Unix (q ÷ 1000) 0, None)
  end.

Record build := mkBuild {
  Number : Z;
  Result : option string;
  Timestamp : jsonTime
}.

Definition isUnfinished (b : build) : bool :=
  match Result b with None => true | Some _ => false end.

Record builds := mkBuilds { Builds : list build }.

(** [var builds builds]: the zero value, a nil slice. *)
Definition zeroBuilds : builds := mkBuilds [].

(** *** The world the plugin runs in *)

Record Response := mkResponse { StatusCode : Z; Body : string }.

Record World := mkWorld {
  clock : nat -> time.Time;        (* successive readings of the wall clock *)
  ticks : nat;                     (* how many readings were taken so far *)
  endpoint : string -> Response + string;  (* what a GET of a URL yields *)
  requests : list string           (* the URLs requested so far, in order *)
}.

Definition M (A : Type) : Type := World -> A * World.

Definition ret {A} (a : A) : M A := fun w => (a, w).

Definition bind {A B} (m : M A) (k : A -> M B) : M B :=
  fun w => let '(a, w') := m w in k a w'.

Notation "x <- c ;; k" := (bind c (fun x => k))
  (at level 100, c at next level, right associativity).

(** [time.Now()]. *)
Definition Now : M time.Time :=
  fun w => (clock w (ticks w),
            mkWorld (clock w) (S (ticks w)) (endpoint w) (requests w)).

(** [http.Get(url)]: a response, or the text of the error. *)
Definition Get (url : string) : M (Response + string) :=
  fun w => (endpoint w url,
            mkWorld (clock w) (ticks w) (endpoint w) (requests w ++ [url])).

Definition tooLong (now : time.Time) (threshold : time.Duration) (b : build) : bool :=
  isUnfinished b && (time.Sub now (toTime (Timestamp b)) >? threshold).

Definition filterUnfinishedTooLongBuilds
    (builds : list build) (threshold : time.Duration) : M (list build) :=
  now <- Now ;;
  ret (fold_left
         (fun ret b => if tooLong now threshold b then ret ++ [b] else ret)
         builds []).

(** What a process invocation ends in: [os.Exit], or a checker handed
    back to [Do]. *)
Inductive Outcome := Exit (code : Z) | Return (c : checkers.Checker).

Definition requestURL (o : Opts) : string :=
  (Scheme o ++ "://" ++ Host o ++ ":" ++ strconv.FormatInt (Port o)
   ++ "/job/" ++ JobName o
   ++ "/api/json?tree=builds[result,number,timestamp]{,"
   ++ strconv.FormatInt (MaxJobNumber o) ++ "}")%string.

Definition tooLongMessage (b : build) : string :=
  ("Build id = " ++ strconv.FormatInt (Number b) ++ " takes too long time")%string.

Definition criticalThreshold (o : Opts) : time.Duration :=
  int64.wrap (time.Second * CritSecond o).

Definition warningThreshold (o : Opts) : time.Duration :=
  int64.wrap (time.Second * WarningSecond o).

Section Plugin.

(** [flags.ParseArgs(&opts, args)] of go-flags: the options, or an error. *)
Variable ParseArgs : list string -> Opts + string.

(** [json.NewDecoder(body).Decode(&v)] of encoding/json: what [v] holds
    afterwards, and the error if any. *)
Variable Decode : string -> builds -> builds * option string.

Definition run (args : list string) : M Outcome :=
  match ParseArgs args with
  | inr _ => ret (Exit 1)
  | inl opts =>
      let url := requestURL opts in
      r <- Get url ;;
      match r with
      | inr err =>
          ret (Return (checkers.Unknown
                         ("Faild to fetch jenkins metrics: " ++ err)%string))
      | inl resp =>
          let '(builds, _) := Decode (Body resp) zeroBuilds in
          crit <- filterUnfinishedTooLongBuilds (Builds builds) (criticalThreshold opts) ;;
          match crit with
          | b :: _ => ret (Return (checkers.NewChecker checkers.CRITICAL (tooLongMessage b)))
          | [] =>
              warn <- filterUnfinishedTooLongBuilds (Builds builds) (warningThreshold opts) ;;
              match warn with
              | b :: _ => ret (Return (checkers.NewChecker checkers.WARNING (tooLongMessage b)))
              | [] => ret (Return (checkers.NewChecker checkers.OK
                                     "No build that takes too long time exists"))
              end
          end
      end
  end.

End Plugin.

(** ** Decimal numerals read mathematically

    The reading against which the parser is judged: no machine
    arithmetic, no cut-offs. *)

Definition isDigit (c : ascii) : bool := (48 <=? byteVal c) && (byteVal c <=? 57).

Fixpoint allDigits (s : string) : bool :=
  match s with
  | EmptyString => true
  | String c s' => isDigit c && allDigits s'
  end.

Fixpoint digitsValue (acc : Z) (s : string) : Z :=
  match s with
  | EmptyString => acc
  | String c s' => digitsValue (10 * acc + (byteVal c - 48)) s'
  end.

Definition digitsOnly (s : string) : bool :=
  match s with
  | EmptyString => false
  | _ => allDigits s
  end.

(** The integer an optionally signed, non-empty run of decimal digits
    denotes; [None] for any other text. *)
Definition decimalValue (s : string) : option Z :=
  match s with
  | EmptyString => None
  | String c rest =>
      if Ascii.eqb c "+" then
        if digitsOnly rest then Some (digitsValue 0 rest) else None
      else if Ascii.eqb c "-" then
        if digitsOnly rest then Some (- digitsValue 0 rest) else None
      else if digitsOnly s then Some (digitsValue 0 s) else None
  end.

(** A decimal numeral whose value fits an int64. *)
Definition decimalInt64 (s : string) : bool :=
  match decimalValue s with
  | Some v => int64.inRangeb v
  | None => false
  end.

(** The specification's wording of the decoder's precondition: one quote
    taken off the front and one off the back when present, and what is
    left must be a decimal integer. *)
Fixpoint spec_dropTrailingQuote (s : string) : string :=
  match s with
  | EmptyString => EmptyString
  | String c EmptyString => if Ascii.eqb c quote then EmptyString else s
  | String c s' => String c (spec_dropTrailingQuote s')
  end.

Definition spec_stripSurroundingQuotes (s : string) : string :=
  match s with
  | String c s' => if Ascii.eqb c quote then spec_dropTrailingQuote s' else spec_dropTrailingQuote s
  | EmptyString => EmptyString
  end.

Definition spec_validDecimal (s : string) : bool :=
  match decimalValue (spec_stripSurroundingQuotes s) with
  | Some _ => true
  | None => false
  end.

(** The world after the request for [url] and [k] readings of the clock. *)
Definition after (w : World) (url : string) (k : nat) : World :=
  mkWorld (clock w) (k + ticks w) (endpoint w) (requests w ++ [url]).

(** ** The scenarios of the specification

    Arguments that parse to the default thresholds (warning 60 s,
    critical 300 s), a clock standing at 2017-08-19 12:47:22 UTC, a server
    that answers or refuses, and a decoder that delivers a given list. *)

Module Scenario.

Definition opts : Opts := mkOpts "http" "localhost" 8080 "sleep30" 10 60 300.

Definition parse (_ : list string) : Opts + string := inl opts.

Definition now : time.Time := time.mkTime 1503146842 0.

Definition started (secondsAgo : Z) : jsonTime :=
  time.mkTime (1503146842 - secondsAgo) 0.

Definition delivers (bs : list build) (_ : string) (_ : builds) : builds * option string :=
  (mkBuilds bs, None).

(** A decoder that gives up on the body and leaves its target alone. *)
Definition givesUp (_ : string) (v : builds) : builds * option string :=
  (v, Some "invalid character '<' looking for beginning of value"%string).

(** A decoder that stops with an error at the second record, after it
    stored the first. *)
Definition stopsHalfway (bs : list build) (_ : string) (_ : builds) : builds * option string :=
  (mkBuilds bs, Some "strconv.ParseInt: parsing x: invalid syntax"%string).

Definition up : World :=
  mkWorld (fun _ => now) 0 (fun _ => inl (mkResponse 200 EmptyString)) [].

Definition refused : string := "dial tcp 127.0.0.1:8080: connect: connection refused".

Definition down : World :=
  mkWorld (fun _ => now) 0 (fun _ => inr refused) [].

Definition A : list build := [mkBuild 57 None (started 400)].
Definition B : list build := [mkBuild 51 None (started 90)].
Definition C : list build := [mkBuild 42 (Some "SUCCESS"%string) (started 10000)].
Definition D : list build := [].

(** Thresholds the wrong way round: critical 60 s, warning 300 s. *)
Definition swapped : Opts := mkOpts "http" "localhost" 8080 "sleep30" 10 300 60.

End Scenario.

(** * Properties *)

(** ** The time arithmetic *)

Section TimeFacts.
Import time.

Lemma wrap_in_range z : int64.inRange z -> int64.wrap z = z.
Proof.
  unfold int64.inRange, int64.wrap, int64.min, int64.max. intros H.
  rewrite Z.mod_small; lia.
Qed.

Lemma wrap_range z : int64.inRange (int64.wrap z).
Proof.
  unfold int64.inRange, int64.wrap, int64.min, int64.max.
  pose proof (Z.mod_pos_bound (z + 2 ^ 63) (2 ^ 64) ltac:(lia)). lia.
Qed.

Lemma wrap_fixed z : int64.wrap z = z -> int64.inRange z.
Proof. intros H. rewrite <- H. apply wrap_range. Qed.

Lemma Add_nanos u d : wf u -> wf (Add u d) /\ nanos (Add u d) = nanos u + d.
Proof.
  unfold wf, Add, nanos. intros Hu.
  pose proof (Z.quot_rem' d 1000000000) as Hd.
  pose proof (Z.rem_bound_abs d 1000000000 ltac:(lia)) as Hr.
  repeat match goal with
         | |- context [if ?c then _ else _] => destruct c eqn:?
         end; cbn [nsec unixSec]; lia.
Qed.

Lemma Equal_nanos t u : wf t -> wf u -> Equal t u = true <-> nanos t = nanos u.
Proof.
  unfold wf, Equal, nanos. intros Ht Hu.
  rewrite andb_true_iff, !Z.eqb_eq. split; [intros [-> ->]; lia|].
  intros H. assert (unixSec t = unixSec u) by lia. lia.
Qed.

Lemma Before_nanos t u : wf t -> wf u -> Before t u = true <-> nanos t < nanos u.
Proof.
  unfold wf, Before, nanos. intros Ht Hu.
  rewrite orb_true_iff, andb_true_iff, !Z.ltb_lt, Z.eqb_eq. lia.
Qed.

(** [Sub] is the exact difference of the two instants when that is a
    [Duration], and the nearest extreme otherwise. *)
Lemma Sub_saturates t u :
  wf t -> wf u -> Sub t u = saturate (nanos t - nanos u).
Proof.
  intros Ht Hu. unfold Sub.
  set (d := int64.wrap _).
  assert (Hd : d = int64.wrap (nanos t - nanos u)).
  { unfold d, nanos, Second. f_equal. lia. }
  clearbody d. subst d.
  destruct (Add_nanos u (int64.wrap (nanos t - nanos u)) Hu) as [Hwf Hn].
  pose proof (wrap_range (nanos t - nanos u)) as Hr.
  unfold int64.inRange in Hr.
  destruct (Equal _ t) eqn:He.
  - apply Equal_nanos in He; trivial.
    unfold saturate, minDuration, maxDuration.
    destruct (Z.ltb_spec (nanos t - nanos u) int64.min); [lia|].
    destruct (Z.gtb_spec (nanos t - nanos u) int64.max); lia.
  - assert (Hne : int64.wrap (nanos t - nanos u) <> nanos t - nanos u).
    { intros E. assert (Equal (Add u (int64.wrap (nanos t - nanos u))) t = true)
        by (apply Equal_nanos; trivial; lia). congruence. }
    assert (Hout : ~ int64.inRange (nanos t - nanos u))
      by (intros Hin; apply Hne, wrap_in_range, Hin).
    unfold int64.inRange in Hout. unfold saturate, minDuration, maxDuration.
    destruct (Before t u) eqn:Hb.
    + apply Before_nanos in Hb; trivial.
      destruct (Z.ltb_spec (nanos t - nanos u) int64.min); [reflexivity|].
      unfold int64.min, int64.max in *. lia.
    + assert (~ nanos t < nanos u)
        by (intros Hlt; apply Before_nanos in Hlt; trivial; congruence).
      destruct (Z.ltb_spec (nanos t - nanos u) int64.min);
        [unfold int64.min in *; lia|].
      destruct (Z.gtb_spec (nanos t - nanos u) int64.max); [reflexivity|lia].
Qed.

(** Against any threshold below the largest duration, comparing [Sub]
    is comparing the exact elapsed nanoseconds. *)
Lemma Sub_gt_exact t u (T : Duration) :
  wf t -> wf u -> int64.min <= T < int64.max ->
  (Sub t u > T <-> nanos t - nanos u > T).
Proof.
  intros Ht Hu HT. rewrite Sub_saturates by assumption.
  unfold saturate, minDuration, maxDuration.
  destruct (Z.ltb_spec (nanos t - nanos u) int64.min); [lia|].
  destruct (Z.gtb_spec (nanos t - nanos u) int64.max); lia.
Qed.

Lemma Unix_whole sec : Unix sec 0 = mkTime sec 0.
Proof. reflexivity. Qed.

End TimeFacts.

(** ** The filter *)

Section FilterFacts.

(** The accumulating loop is a filter placed behind what was already
    collected. *)
Lemma loop_is_filter (p : build -> bool) (l acc : list build) :
  fold_left (fun ret b => if p b then ret ++ [b] else ret) l acc
  = acc ++ List.filter p l.
Proof.
  revert acc. induction l as [|b l IH]; intros acc; cbn.
  - now rewrite app_nil_r.
  - rewrite IH. destruct (p b); [|reflexivity].
    now rewrite <- app_assoc.
Qed.

Lemma filter_result (bs : list build) (T : time.Duration) (w : World) :
  filterUnfinishedTooLongBuilds bs T w
  = (List.filter (tooLong (clock w (ticks w)) T) bs,
     mkWorld (clock w) (S (ticks w)) (endpoint w) (requests w)).
Proof.
  unfold filterUnfinishedTooLongBuilds, bind, Now, ret.
  now rewrite loop_is_filter.
Qed.

Lemma tooLong_spec now T b :
  tooLong now T b = true
  <-> Result b = None /\ time.Sub now (toTime (Timestamp b)) > T.
Proof.
  unfold tooLong, isUnfinished. rewrite andb_true_iff, Z.gtb_gt.
  destruct (Result b); intuition congruence.
Qed.

Lemma filter_sublist (p : build -> bool) (l : list build) :
  sublist (List.filter p l) l.
Proof.
  induction l as [|b l IH]; cbn.
  - constructor.
  - destruct (p b); now constructor.
Qed.

(** The head of a filter is the first element of the list that passes. *)
Lemma filter_head (p : build -> bool) (l : list build) b rest :
  List.filter p l = b :: rest ->
  exists pre post,
    l = pre ++ b :: post /\ p b = true /\ Forall (fun x => p x = false) pre.
Proof.
  induction l as [|a l IH]; cbn; [discriminate|].
  destruct (p a) eqn:Ha.
  - intros [= -> _]. exists [], l. repeat split; auto.
  - intros H. destruct (IH H) as (pre & post & -> & Hb & Hpre).
    exists (a :: pre), post. repeat split; trivial. now constructor.
Qed.

End FilterFacts.

(** C2.  With [now] the clock reading the call takes, a build is in the
    result of [filterUnfinishedTooLongBuilds builds T] exactly when it is
    in [builds], its result is absent and [now.Sub(timestamp) > T]; so a
    build with a result is never returned, and neither is one whose
    elapsed time is at most [T].  For instants with a proper nanosecond
    part and a threshold below the largest duration, [now.Sub(timestamp)]
    may be read as the exact number of nanoseconds between the two. *)
Theorem filter_membership (w : World) (bs : list build) (T : time.Duration) (b : build) :
  let now := clock w (ticks w) in
  let out := fst (filterUnfinishedTooLongBuilds bs T w) in
  (In b out <->
     In b bs /\ Result b = None /\ time.Sub now (toTime (Timestamp b)) > T)
  /\ (Result b <> None -> ~ In b out)
  /\ (time.Sub now (toTime (Timestamp b)) <= T -> ~ In b out)
  /\ (time.wf now -> time.wf (toTime (Timestamp b)) -> int64.min <= T < int64.max ->
      (In b out <->
         In b bs /\ Result b = None
         /\ time.nanos now - time.nanos (toTime (Timestamp b)) > T)).
Proof.
  cbv zeta. rewrite filter_result. cbn [fst].
  assert (E : In b (List.filter (tooLong (clock w (ticks w)) T) bs) <->
              In b bs /\ Result b = None
              /\ time.Sub (clock w (ticks w)) (toTime (Timestamp b)) > T).
  { rewrite filter_In, tooLong_spec. reflexivity. }
  split; [exact E|]. split; [|split].
  - intros Hr Hin. apply E in Hin. tauto.
  - intros Hle Hin. apply E in Hin. lia.
  - intros Hn Hb HT. rewrite E.
    pose proof (Sub_gt_exact _ _ T Hn Hb HT) as X. tauto.
Qed.

(** C8.  The result of [filterUnfinishedTooLongBuilds] is a subsequence of
    its input: the builds kept stand in the order the input has them; it
    is the input with the builds failing the test left out. *)
Theorem filter_stable (w : World) (bs : list build) (T : time.Duration) :
  let out := fst (filterUnfinishedTooLongBuilds bs T w) in
  sublist out bs
  /\ out = List.filter (tooLong (clock w (ticks w)) T) bs.
Proof.
  cbv zeta. rewrite filter_result. cbn [fst]. split; [|reflexivity].
  apply filter_sublist.
Qed.

(** Thresholds made from seconds keep the order of the seconds as long
    as the multiplication by [time.Second] stays within an int64. *)
Lemma thresholds_ordered (o : Opts) :
  0 <= WarningSecond o <= CritSecond o -> CritSecond o <= 9223372036 ->
  warningThreshold o <= criticalThreshold o.
Proof.
  intros H1 H2. unfold warningThreshold, criticalThreshold, time.Second.
  rewrite !wrap_in_range;
    unfold int64.inRange, int64.min, int64.max; lia.
Qed.

Lemma tooLong_antitone now (T1 T2 : time.Duration) b :
  T2 <= T1 -> tooLong now T1 b = true -> tooLong now T2 b = true.
Proof. intros HT. rewrite !tooLong_spec. intuition lia. Qed.

(** C10.  At one clock reading the filter is antitone in the threshold:
    with [T2 <= T1] every build returned for [T1] is returned for [T2].
    Hence whenever the critical threshold is at least the warning
    threshold, a build that is critical is also a warning. *)
Theorem filter_monotone (w : World) (bs : list build) (b : build) :
  (forall T1 T2 : time.Duration,
      T2 <= T1 ->
      In b (fst (filterUnfinishedTooLongBuilds bs T1 w)) ->
      In b (fst (filterUnfinishedTooLongBuilds bs T2 w)))
  /\ (forall o : Opts,
        warningThreshold o <= criticalThreshold o ->
        In b (fst (filterUnfinishedTooLongBuilds bs (criticalThreshold o) w)) ->
        In b (fst (filterUnfinishedTooLongBuilds bs (warningThreshold o) w))).
Proof.
  assert (G : forall T1 T2 : time.Duration,
             T2 <= T1 ->
             In b (fst (filterUnfinishedTooLongBuilds bs T1 w)) ->
             In b (fst (filterUnfinishedTooLongBuilds bs T2 w))).
  { intros T1 T2 HT. rewrite !filter_result. cbn [fst].
    rewrite !filter_In. intros [Hin Hp]. split; [exact Hin|].
    exact (tooLong_antitone _ _ _ _ HT Hp). }
  split; [exact G|]. intros o. apply G.
Qed.

Lemma filter_monotone_witness :
  let w := mkWorld (fun _ => Scenario.now) 0 (fun _ => inr EmptyString) [] in
  let b := mkBuild 57 None (Scenario.started 400) in
  In b (fst (filterUnfinishedTooLongBuilds [b] 60000000000 w))
  /\ In b (fst (filterUnfinishedTooLongBuilds [b] (warningThreshold Scenario.opts) w)).
Proof.
  cbv zeta. split.
  - apply (proj1 (filter_monotone _ _ _) 300000000000 60000000000); [lia|].
    vm_compute. left. reflexivity.
  - apply (proj2 (filter_monotone _ _ _) Scenario.opts).
    + apply thresholds_ordered; [vm_compute; split; discriminate|vm_compute; discriminate].
    + vm_compute. left. reflexivity.
Defined.

(** ** Decimal parsing and printing *)

Section StrconvFacts.
Import strconv.

Lemma byteVal_range c : 0 <= byteVal c < 256.
Proof.
  unfold byteVal. pose proof (N_ascii_bounded c). lia.
Qed.

Lemma byteVal_byteOf z : 0 <= z < 256 -> byteVal (byteOf z) = z.
Proof.
  intros Hz. unfold byteVal, byteOf.
  rewrite N_ascii_embedding by lia. lia.
Qed.

Lemma digitOf_digit c :
  isDigit c = true ->
  digitOf (byteVal c) = Some (byteVal c - 48) /\ 0 <= byteVal c - 48 < 10.
Proof.
  unfold isDigit, digitOf. intros H. rewrite H.
  apply andb_true_iff in H. rewrite !Z.leb_le in H. split; [reflexivity|lia].
Qed.

Lemma digitOf_other c :
  isDigit c = false ->
  digitOf (byteVal c) = None \/ exists d, digitOf (byteVal c) = Some d /\ 10 <= d.
Proof.
  unfold isDigit, digitOf. intros H. rewrite H. clear H.
  destruct ((97 <=? _) && _) eqn:E; [right|left; reflexivity].
  apply andb_true_iff in E. rewrite !Z.leb_le in E.
  eexists; split; [reflexivity|lia].
Qed.

Lemma digitsValue_grows s : forall n,
  allDigits s = true -> 0 <= n -> n <= digitsValue n s.
Proof.
  induction s as [|c s IH]; intros n Hs Hn; cbn in *; [lia|].
  apply andb_true_iff in Hs. destruct Hs as [Hc Hs].
  destruct (digitOf_digit c Hc) as [_ Hd].
  specialize (IH (10 * n + (byteVal c - 48)) Hs). lia.
Qed.

(** On a run of digits the loop computes the value of the numeral, or
    reports a range error when that value exceeds a uint64. *)
Lemma parseUintLoop_digits s0 s : forall n,
  allDigits s = true -> 0 <= n <= uint64.max ->
  parseUintLoop s0 s n
  = if digitsValue n s <=? uint64.max then (digitsValue n s, None)
    else (maxVal, Some (rangeError fnParseUint s0)).
Proof.
  induction s as [|c s IH]; intros n Hs Hn; cbn [parseUintLoop digitsValue].
  - destruct (Z.leb_spec n uint64.max); [reflexivity|lia].
  - cbn in Hs. apply andb_true_iff in Hs. destruct Hs as [Hc Hs].
    destruct (digitOf_digit c Hc) as [-> Hd].
    set (d := byteVal c - 48) in *.
    pose proof (digitsValue_grows s (10 * n + d) Hs ltac:(lia)) as Hg.
    unfold base, cutoff, uint64.wrap, uint64.max, maxVal in *.
    change (2 ^ 64) with 18446744073709551616 in *.
    change (18446744073709551616 - 1) with 18446744073709551615 in *.
    change (18446744073709551615 / 10 + 1) with 1844674407370955162 in *.
    destruct (Z.geb_spec d 10); [lia|].
    destruct (Z.geb_spec n 1844674407370955162) as [Hc1|Hc1].
    { destruct (Z.leb_spec (digitsValue (10 * n + d) s) 18446744073709551615);
        [lia|reflexivity]. }
    rewrite (Z.mod_small (n * 10)) by lia.
    destruct (Z.le_gt_cases (10 * n + d) 18446744073709551615) as [Hfit|Hover].
    + rewrite (Z.mod_small (n * 10 + d)) by lia.
      destruct (Z.ltb_spec (n * 10 + d) (n * 10)); [lia|].
      destruct (Z.gtb_spec (n * 10 + d) 18446744073709551615); [lia|].
      cbn [orb]. replace (n * 10 + d) with (10 * n + d) by lia.
      apply IH; [assumption|lia].
    + assert (E : (n * 10 + d) mod 18446744073709551616
                  = n * 10 + d - 18446744073709551616).
      { symmetry. apply (Z.mod_unique_pos _ _ 1); lia. }
      rewrite E.
      destruct (Z.ltb_spec (n * 10 + d - 18446744073709551616) (n * 10)); [|lia].
      cbn [orb].
      destruct (Z.leb_spec (digitsValue (10 * n + d) s) 18446744073709551615);
        [lia|reflexivity].
Qed.

(** A byte that is no digit makes the loop fail. *)
Lemma parseUintLoop_junk s0 s : forall n,
  allDigits s = false -> snd (parseUintLoop s0 s n) <> None.
Proof.
  induction s as [|c s IH]; intros n Hs; cbn in Hs; [discriminate|].
  cbn [parseUintLoop].
  destruct (isDigit c) eqn:Hc.
  - destruct (digitOf_digit c Hc) as [-> Hd]. cbn in Hs.
    destruct (_ >=? base); [cbn; discriminate|].
    destruct (_ >=? cutoff); [cbn; discriminate|].
    destruct (_ || _); [cbn; discriminate|].
    now apply IH.
  - destruct (digitOf_other c Hc) as [->|(d & -> & Hd)]; [cbn; discriminate|].
    unfold base. destruct (Z.geb_spec d 10); [cbn; discriminate|lia].
Qed.

Lemma ParseUint_digits s :
  digitsOnly s = true ->
  ParseUint s
  = if digitsValue 0 s <=? uint64.max then (digitsValue 0 s, None)
    else (maxVal, Some (rangeError fnParseUint s)).
Proof.
  destruct s as [|c s]; [discriminate|]. intros H.
  unfold ParseUint. apply parseUintLoop_digits; [exact H|].
  unfold uint64.max. lia.
Qed.

Lemma ParseUint_junk s : digitsOnly s = false -> snd (ParseUint s) <> None.
Proof.
  destruct s as [|c s]; [cbn; discriminate|]. intros H.
  unfold ParseUint. now apply parseUintLoop_junk.
Qed.

Lemma parseUintLoop_error s0 s : forall n,
  snd (parseUintLoop s0 s n) <> None ->
  parseUintLoop s0 s n = (0, Some (syntaxError fnParseUint s0))
  \/ parseUintLoop s0 s n = (maxVal, Some (rangeError fnParseUint s0)).
Proof.
  induction s as [|c s IH]; intros n; cbn [parseUintLoop]; [cbn; congruence|].
  destruct (digitOf (byteVal c)); [|now left].
  destruct (_ >=? base); [now left|].
  destruct (_ >=? cutoff); [now right|].
  destruct (_ || _); [now right|]. apply IH.
Qed.

Lemma ParseUint_error s :
  snd (ParseUint s) <> None ->
  ParseUint s = (0, Some (syntaxError fnParseUint s))
  \/ ParseUint s = (maxVal, Some (rangeError fnParseUint s)).
Proof.
  destruct s as [|c s]; [now left|]. apply parseUintLoop_error.
Qed.

Lemma ParseInt_unfold c rest :
  ParseInt (String c rest)
  = if Ascii.eqb c "+" then signed false (String c rest) (ParseUint rest)
    else if Ascii.eqb c "-" then signed true (String c rest) (ParseUint rest)
    else signed false (String c rest) (ParseUint (String c rest)).
Proof.
  unfold ParseInt, signed.
  destruct (Ascii.eqb c "+"); [reflexivity|].
  destruct (Ascii.eqb c "-"); reflexivity.
Qed.

Lemma signed_junk (neg : bool) s0 s :
  digitsOnly s = false -> snd (signed neg s0 (ParseUint s)) <> None.
Proof.
  intros H. apply ParseUint_junk in H.
  destruct (ParseUint_error s H) as [-> | ->]; [cbn; discriminate|].
  destruct neg; cbn; discriminate.
Qed.

Lemma inRangeb_true z :
  - 9223372036854775808 <= z <= 9223372036854775807 -> int64.inRangeb z = true.
Proof.
  intros H. unfold int64.inRangeb, int64.min, int64.max.
  rewrite andb_true_iff, !Z.leb_le. lia.
Qed.

Lemma inRangeb_false z :
  z < - 9223372036854775808 \/ 9223372036854775807 < z -> int64.inRangeb z = false.
Proof.
  intros H. unfold int64.inRangeb, int64.min, int64.max.
  rewrite andb_false_iff, !Z.leb_gt. lia.
Qed.

Lemma inRange_bounds z :
  - 9223372036854775808 <= z <= 9223372036854775807 -> int64.inRange z.
Proof. unfold int64.inRange, int64.min, int64.max. lia. Qed.

Lemma signed_digits (neg : bool) s0 s :
  digitsOnly s = true ->
  let v := if neg then - digitsValue 0 s else digitsValue 0 s in
  if int64.inRangeb v then signed neg s0 (ParseUint s) = (v, None)
  else snd (signed neg s0 (ParseUint s)) <> None.
Proof.
  intros H. cbv zeta. rewrite (ParseUint_digits s H).
  assert (Hs : allDigits s = true) by (destruct s; [discriminate|exact H]).
  pose proof (digitsValue_grows s 0 Hs ltac:(lia)) as Hv.
  set (v := digitsValue 0 s) in *. clearbody v.
  unfold uint64.max, maxVal, signed.
  change (2 ^ 64 - 1) with 18446744073709551615.
  change (2 ^ 63) with 9223372036854775808.
  destruct (Z.leb_spec v 18446744073709551615) as [Hu|Hu].
  - destruct neg; cbn [negb andb].
    + destruct (Z.gtb_spec v 9223372036854775808) as [Hc|Hc].
      * rewrite inRangeb_false by lia. cbn. discriminate.
      * rewrite inRangeb_true by lia. f_equal.
        destruct (Z.eq_dec v 9223372036854775808) as [->|Hne]; [reflexivity|].
        rewrite (wrap_in_range v) by (apply inRange_bounds; lia).
        apply wrap_in_range, inRange_bounds. lia.
    + destruct (Z.geb_spec v 9223372036854775808) as [Hc|Hc].
      * rewrite inRangeb_false by lia. cbn. discriminate.
      * rewrite inRangeb_true by lia. f_equal.
        apply wrap_in_range, inRange_bounds. lia.
  - rewrite inRangeb_false by (destruct neg; lia).
    destruct neg; cbn; discriminate.
Qed.

(** [ParseInt] against the mathematical reading: a numeral whose value
    fits is parsed to that value, everything else is an error. *)
Lemma ParseInt_spec s :
  match decimalValue s with
  | Some v =>
      if int64.inRangeb v then ParseInt s = (v, None)
      else snd (ParseInt s) <> None
  | None => snd (ParseInt s) <> None
  end.
Proof.
  destruct s as [|c rest]; [cbn; discriminate|].
  rewrite ParseInt_unfold. unfold decimalValue.
  destruct (Ascii.eqb c "+").
  { destruct (digitsOnly rest) eqn:E.
    - apply (signed_digits false _ _ E).
    - now apply signed_junk. }
  destruct (Ascii.eqb c "-").
  { destruct (digitsOnly rest) eqn:E.
    - apply (signed_digits true _ _ E).
    - now apply signed_junk. }
  destruct (digitsOnly (String c rest)) eqn:E.
  - apply (signed_digits false _ _ E).
  - now apply signed_junk.
Qed.

Lemma ParseInt_ok_iff s : snd (ParseInt s) = None <-> decimalInt64 s = true.
Proof.
  pose proof (ParseInt_spec s) as H. unfold decimalInt64.
  destruct (decimalValue s) as [v|].
  - destruct (int64.inRangeb v); [rewrite H; cbn; tauto|].
    split; [tauto|discriminate].
  - split; [tauto|discriminate].
Qed.

Lemma ParseInt_value s v :
  decimalValue s = Some v -> int64.inRange v -> ParseInt s = (v, None).
Proof.
  intros E Hv. pose proof (ParseInt_spec s) as H. rewrite E in H.
  assert (R : int64.inRangeb v = true).
  { unfold int64.inRangeb, int64.inRange in *. rewrite andb_true_iff, !Z.leb_le. lia. }
  now rewrite R in H.
Qed.

Lemma digit_byte k : 0 <= k < 10 ->
  isDigit (byteOf (48 + k)) = true /\ byteVal (byteOf (48 + k)) - 48 = k.
Proof.
  intros Hk. unfold isDigit. rewrite byteVal_byteOf by lia.
  split; [|lia]. rewrite andb_true_iff, !Z.leb_le. lia.
Qed.

Lemma formatBits_allDigits fuel : forall u acc,
  0 <= u -> allDigits acc = true -> allDigits (formatBits fuel u acc) = true.
Proof.
  induction fuel as [|fuel IH]; intros u acc Hu Hacc; cbn [formatBits]; [exact Hacc|].
  pose proof (Z.mod_pos_bound u 10 ltac:(lia)) as Hm.
  destruct (digit_byte (u mod 10) Hm) as [Hd _].
  assert (Hacc' : allDigits (String (byteOf (48 + u mod 10)) acc) = true)
    by (cbn; now rewrite Hd, Hacc).
  destruct (u <? 10); [exact Hacc'|].
  apply IH; [apply Z.div_pos; lia|exact Hacc'].
Qed.

Lemma formatBits_nonempty fuel u acc :
  formatBits (S fuel) u acc <> EmptyString.
Proof.
  revert u acc. induction fuel as [|fuel IH]; intros u acc.
  - cbn. destruct (u <? 10); discriminate.
  - cbn [formatBits]. destruct (u <? 10); [discriminate|]. apply IH.
Qed.

(** With enough fuel the digits printed for [u] read back as [u]. *)
Lemma formatBits_value fuel : forall u acc,
  0 <= u < 10 ^ Z.of_nat fuel ->
  digitsValue 0 (formatBits fuel u acc) = digitsValue u acc.
Proof.
  induction fuel as [|fuel IH]; intros u acc Hu.
  - cbn in Hu. assert (u = 0) by lia. now subst.
  - cbn [formatBits].
    pose proof (Z.mod_pos_bound u 10 ltac:(lia)) as Hm.
    destruct (digit_byte (u mod 10) Hm) as [_ Hd].
    pose proof (Z.div_mod u 10 ltac:(lia)) as Hdm.
    destruct (Z.ltb_spec u 10) as [Hlt|Hge].
    + cbn [digitsValue]. rewrite Hd. rewrite Z.mod_small by lia. f_equal.
    + rewrite IH.
      * cbn [digitsValue]. rewrite Hd. f_equal. lia.
      * rewrite Nat2Z.inj_succ, Z.pow_succ_r in Hu by lia.
        split; [apply Z.div_pos; lia|].
        apply Z.div_lt_upper_bound; lia.
Qed.

Lemma digitsOnly_formatBits u :
  0 <= u -> digitsOnly (formatBits 20 u EmptyString) = true.
Proof.
  intros Hu. unfold digitsOnly.
  pose proof (formatBits_nonempty 19 u EmptyString) as Hne.
  pose proof (formatBits_allDigits 20 u EmptyString Hu eq_refl) as Hd.
  destruct (formatBits 20 u EmptyString); [congruence|exact Hd].
Qed.

Lemma digit_not_sign c rest :
  digitsOnly (String c rest) = true ->
  Ascii.eqb c "+" = false /\ Ascii.eqb c "-" = false.
Proof.
  cbn. intros H. apply andb_true_iff in H. destruct H as [H _].
  split; apply Ascii.eqb_neq; intros ->; vm_compute in H; discriminate.
Qed.

(** The numeral [FormatInt] prints denotes the integer printed. *)
Lemma decimalValue_FormatInt m :
  - 10 ^ 20 < m < 10 ^ 20 -> decimalValue (FormatInt m) = Some m.
Proof.
  intros Hm. unfold FormatInt.
  destruct (Z.ltb_spec m 0) as [Hneg|Hpos].
  - unfold decimalValue.
    change (Ascii.eqb "-" "+") with false. change (Ascii.eqb "-" "-") with true.
    cbv iota. rewrite digitsOnly_formatBits by lia.
    rewrite formatBits_value by (change (Z.of_nat 20) with 20; lia).
    cbn [digitsValue]. f_equal. lia.
  - pose proof (digitsOnly_formatBits m Hpos) as Hd.
    pose proof (formatBits_value 20 m EmptyString) as Hv.
    destruct (formatBits 20 m EmptyString) as [|c rest] eqn:E; [discriminate|].
    unfold decimalValue.
    destruct (digit_not_sign c rest Hd) as [-> ->]. rewrite Hd.
    rewrite Hv by (change (Z.of_nat 20) with 20; lia). reflexivity.
Qed.

Lemma ParseInt_FormatInt m :
  int64.inRange m -> ParseInt (FormatInt m) = (m, None).
Proof.
  intros Hm. apply ParseInt_value; [|exact Hm].
  apply decimalValue_FormatInt.
  unfold int64.inRange, int64.min, int64.max in Hm. lia.
Qed.

End StrconvFacts.

(** ** The timestamp adapter *)

Section AdapterFacts.
Import strconv.

Lemma Replace_app s1 s2 old :
  strings.Replace (s1 ++ s2)%string old
  = (strings.Replace s1 old ++ strings.Replace s2 old)%string.
Proof.
  induction s1 as [|c s1 IH]; cbn; [reflexivity|].
  destruct (Ascii.eqb c old); cbn; now rewrite IH.
Qed.

Lemma Replace_digits s : allDigits s = true -> strings.Replace s quote = s.
Proof.
  induction s as [|c s IH]; cbn [strings.Replace allDigits]; [reflexivity|].
  intros H. apply andb_true_iff in H. destruct H as [Hc Hs].
  destruct (Ascii.eqb_spec c quote) as [->|_]; [vm_compute in Hc; discriminate|].
  now rewrite IH.
Qed.

Lemma Replace_FormatInt m : strings.Replace (FormatInt m) quote = FormatInt m.
Proof.
  unfold FormatInt. destruct (Z.ltb_spec m 0).
  - cbn [strings.Replace]. change (Ascii.eqb "-" quote) with false. cbv iota.
    f_equal. apply Replace_digits, formatBits_allDigits; [lia|reflexivity].
  - apply Replace_digits, formatBits_allDigits; [lia|reflexivity].
Qed.

Lemma Replace_quoted s :
  strings.Replace (String quote (s ++ String quote EmptyString)) quote
  = strings.Replace s quote.
Proof.
  cbn [strings.Replace]. rewrite Ascii.eqb_refl, Replace_app.
  cbn [strings.Replace]. rewrite Ascii.eqb_refl.
  induction (strings.Replace s quote) as [|c r IH]; cbn; congruence.
Qed.

Lemma UnmarshalJSON_value t s m :
  decimalValue (strings.Replace s quote) = Some m -> int64.inRange m ->
  UnmarshalJSON t s = (time.Unix (m ÷ 1000) 0, None).
Proof.
  intros E Hm. unfold UnmarshalJSON.
  now rewrite (ParseInt_value _ _ E Hm).
Qed.

Lemma UnmarshalJSON_FormatInt t m :
  int64.inRange m ->
  UnmarshalJSON t (FormatInt m) = (time.Unix (m ÷ 1000) 0, None).
Proof.
  intros Hm. apply UnmarshalJSON_value; [|exact Hm].
  rewrite Replace_FormatInt. apply decimalValue_FormatInt.
  unfold int64.inRange, int64.min, int64.max in Hm. lia.
Qed.

(** What encoding and then decoding really gives: the seconds of the
    instant taken for milliseconds. *)
Lemma Marshal_then_Unmarshal t0 t :
  int64.inRange (time.toUnix (toTime t)) ->
  UnmarshalJSON t0 (fst (MarshalJSON t))
  = (time.Unix (time.unixSec t ÷ 1000) 0, None).
Proof. intros H. cbn [MarshalJSON fst]. now apply UnmarshalJSON_FormatInt. Qed.

End AdapterFacts.

(** C3.  Encoding an instant and decoding the text again does not give
    the instant cut to whole seconds: [MarshalJSON] prints seconds and
    [UnmarshalJSON] divides what it reads by 1000.  The start of build 57
    of the source's own example, 2017-08-19 12:40:42 UTC, comes back as
    1503146 seconds after the epoch, in January 1970. *)
Theorem roundtrip_at_build_57 :
  let t := time.Unix 1503146442 0 in
  UnmarshalJSON time.zero (fst (MarshalJSON t)) = (time.Unix 1503146 0, None)
  /\ fst (UnmarshalJSON time.zero (fst (MarshalJSON t))) <> time.truncSecond t.
Proof.
  cbv zeta. rewrite Marshal_then_Unmarshal.
  - split; [reflexivity|]. cbn. discriminate.
  - vm_compute. split; discriminate.
Qed.

(** C4.  [MarshalJSON] renders the seconds since the epoch, not the
    milliseconds: for the instant 1503146442 s it prints 1503146442,
    where the milliseconds would read 1503146442000. *)
Theorem MarshalJSON_at_build_57 :
  let t := time.Unix 1503146442 0 in
  MarshalJSON t = ("1503146442"%string, None)
  /\ fst (MarshalJSON t) <> strconv.FormatInt (1000 * time.toUnix (toTime t)).
Proof.
  cbv zeta. split; [reflexivity|]. vm_compute. discriminate.
Qed.

(** C5.  Decoding the decimal text of an int64 [m], bare or between
    quotes, and more generally any text that reads as [m] once its quotes
    are removed, stores the instant [m / 1000] whole seconds after the
    epoch with no sub-second part, the division truncating, and reports no
    error. *)
Theorem UnmarshalJSON_decodes (t : jsonTime) (m : Z) :
  int64.inRange m ->
  let r := (time.mkTime (m ÷ 1000) 0, None) in
  UnmarshalJSON t (strconv.FormatInt m) = r
  /\ UnmarshalJSON t (String quote (strconv.FormatInt m ++ String quote EmptyString)) = r
  /\ (forall s, decimalValue (strings.Replace s quote) = Some m -> UnmarshalJSON t s = r)
  /\ time.wf (fst r) /\ time.toUnix (fst r) = m ÷ 1000 /\ time.nsec (fst r) = 0.
Proof.
  intros Hm. cbv zeta. rewrite <- Unix_whole.
  split; [now apply UnmarshalJSON_FormatInt|].
  split.
  { apply UnmarshalJSON_value; [|exact Hm].
    rewrite Replace_quoted, Replace_FormatInt. apply decimalValue_FormatInt.
    unfold int64.inRange, int64.min, int64.max in Hm. lia. }
  split; [intros s E; now apply UnmarshalJSON_value|].
  cbn. unfold time.wf. cbn. repeat split; lia.
Qed.

Lemma UnmarshalJSON_decodes_witness :
  int64.inRange 1503146442652
  /\ UnmarshalJSON time.zero "1503146442652"%string
     = (time.mkTime 1503146442 0, None).
Proof.
  assert (H : int64.inRange 1503146442652) by (vm_compute; split; discriminate).
  split; [exact H|].
  exact (proj1 (UnmarshalJSON_decodes time.zero 1503146442652 H)).
Defined.

(** C6, as the specification words it, fails.  2^63 is a decimal integer
    and needs no stripping, yet decoding it is an error; and a text with a
    quote inside, which stripping the surrounding quotes leaves alone and
    which therefore is no decimal integer, decodes without error. *)
Lemma UnmarshalJSON_error_counterexample :
  ~ (forall (t : jsonTime) (s : string),
        snd (UnmarshalJSON t s) <> None <-> spec_validDecimal s = false)
  /\ (spec_validDecimal "9223372036854775808" = true
      /\ snd (UnmarshalJSON time.zero "9223372036854775808") <> None)
  /\ (let s := String "1" (String quote (String "2" EmptyString)) in
      spec_validDecimal s = false /\ snd (UnmarshalJSON time.zero s) = None).
Proof.
  split; [|split; split; vm_compute; congruence].
  intros H. specialize (H time.zero "9223372036854775808"%string).
  destruct H as [H _].
  assert (E : snd (UnmarshalJSON time.zero "9223372036854775808") <> None)
    by (vm_compute; discriminate).
  specialize (H E). vm_compute in H. discriminate.
Qed.

(** C6, amended.  Decoding is an error exactly when the input with every
    quote removed is not an optionally signed, non-empty run of decimal
    digits whose value fits an int64; on an error the target keeps the
    value it had, and without one it holds the decoded instant. *)
Theorem UnmarshalJSON_error_iff (t : jsonTime) (s : string) :
  (snd (UnmarshalJSON t s) <> None
   <-> decimalInt64 (strings.Replace s quote) = false)
  /\ (snd (UnmarshalJSON t s) <> None -> fst (UnmarshalJSON t s) = t)
  /\ (snd (UnmarshalJSON t s) = None ->
      exists m, decimalValue (strings.Replace s quote) = Some m
                /\ fst (UnmarshalJSON t s) = time.Unix (m ÷ 1000) 0).
Proof.
  pose proof (ParseInt_spec (strings.Replace s quote)) as H.
  unfold UnmarshalJSON, decimalInt64.
  destruct (decimalValue (strings.Replace s quote)) as [v|].
  - destruct (int64.inRangeb v).
    + rewrite H. cbn. repeat split; try congruence.
      intros _. now exists v.
    + destruct (strconv.ParseInt _) as [q [e|]]; cbn in *; [|congruence].
      repeat split; try congruence.
  - destruct (strconv.ParseInt _) as [q [e|]]; cbn in *; [|congruence].
    repeat split; try congruence.
Qed.

(** ** The check *)

Section RunFacts.
Variable ParseArgs : list string -> Opts + string.
Variable Decode : string -> builds -> builds * option string.

Lemma run_exit args e w :
  ParseArgs args = inr e -> run ParseArgs Decode args w = (Exit 1, w).
Proof. intros E. unfold run. now rewrite E. Qed.

Lemma run_failed args o e w :
  ParseArgs args = inl o ->
  endpoint w (requestURL o) = inr e ->
  run ParseArgs Decode args w
  = (Return (checkers.Unknown ("Faild to fetch jenkins metrics: " ++ e)%string),
     after w (requestURL o) 0).
Proof.
  intros E1 E2. unfold run. rewrite E1. unfold bind, Get. now rewrite E2.
Qed.

Lemma run_fetched args o resp w :
  ParseArgs args = inl o ->
  endpoint w (requestURL o) = inl resp ->
  let bs := Builds (fst (Decode (Body resp) zeroBuilds)) in
  run ParseArgs Decode args w
  = match List.filter (tooLong (clock w (ticks w)) (criticalThreshold o)) bs with
    | b :: _ =>
        (Return (checkers.NewChecker checkers.CRITICAL (tooLongMessage b)),
         after w (requestURL o) 1)
    | [] =>
        match List.filter (tooLong (clock w (S (ticks w))) (warningThreshold o)) bs with
        | b :: _ =>
            (Return (checkers.NewChecker checkers.WARNING (tooLongMessage b)),
             after w (requestURL o) 2)
        | [] =>
            (Return (checkers.NewChecker checkers.OK
                       "No build that takes too long time exists"),
             after w (requestURL o) 2)
        end
    end.
Proof.
  intros E1 E2. cbv zeta. unfold run. rewrite E1.
  unfold bind at 1. unfold Get at 1. rewrite E2.
  destruct (Decode (Body resp) zeroBuilds) as [bs err]. cbn [fst].
  unfold bind at 1. rewrite filter_result. cbn [clock ticks endpoint requests].
  destruct (List.filter _ (Builds bs)) as [|b rest]; [|reflexivity].
  unfold bind at 1. rewrite filter_result. cbn [clock ticks endpoint requests].
  destruct (List.filter _ (Builds bs)) as [|b rest]; reflexivity.
Qed.
End RunFacts.

Section Scenarios.
Import Scenario checkers.

Example scenario_A :
  fst (run parse (delivers A) [] up)
  = Return (NewChecker CRITICAL "Build id = 57 takes too long time").
Proof. vm_compute. reflexivity. Qed.

Example scenario_B :
  fst (run parse (delivers B) [] up)
  = Return (NewChecker WARNING "Build id = 51 takes too long time").
Proof. vm_compute. reflexivity. Qed.

Example scenario_C :
  fst (run parse (delivers C) [] up)
  = Return (NewChecker OK "No build that takes too long time exists").
Proof. vm_compute. reflexivity. Qed.

Example scenario_D :
  fst (run parse (delivers D) [] up)
  = Return (NewChecker OK "No build that takes too long time exists").
Proof. vm_compute. reflexivity. Qed.

Example scenario_E :
  fst (run parse (delivers A) [] down)
  = Return (NewChecker UNKNOWN
              ("Faild to fetch jenkins metrics: " ++ refused)%string).
Proof. vm_compute. reflexivity. Qed.

(** With the thresholds the wrong way round the critical test still
    comes first: a build 90 s old is critical, not a warning. *)
Example scenario_swapped :
  fst (run (fun _ => inl swapped) (delivers B) [] up)
  = Return (NewChecker CRITICAL "Build id = 51 takes too long time").
Proof. vm_compute. reflexivity. Qed.

(** Only the first of several offending builds is reported. *)
Example scenario_two_offenders :
  fst (run parse (delivers (A ++ [mkBuild 58 None (started 500)])) [] up)
  = Return (NewChecker CRITICAL "Build id = 57 takes too long time").
Proof. vm_compute. reflexivity. Qed.

(** A record none of whose fields was decoded is an unfinished build
    started in year 1, and is reported. *)
Example scenario_zero_record :
  fst (run parse (stopsHalfway [mkBuild 0 None time.zero]) [] up)
  = Return (NewChecker CRITICAL "Build id = 0 takes too long time").
Proof. vm_compute. reflexivity. Qed.

End Scenarios.

(** C1.  After a fetch that succeeded, with [builds] what the decoder
    left: if [filterUnfinishedTooLongBuilds builds criticalThreshold] is
    not empty the check is CRITICAL, naming the number of its first build,
    and ends in the world that call left, so the warning call is never
    made; otherwise, if the call with the warning threshold is not empty,
    the check is WARNING by the same rule; otherwise it is OK.  The build
    named is the first of [builds] that passes the test.  Nothing is
    assumed of the two thresholds. *)
Theorem severity_resolution
    (ParseArgs : list string -> Opts + string)
    (Decode : string -> builds -> builds * option string)
    (args : list string) (o : Opts) (resp : Response) (w : World) :
  ParseArgs args = inl o ->
  endpoint w (requestURL o) = inl resp ->
  let bs := Builds (fst (Decode (Body resp) zeroBuilds)) in
  let crit := filterUnfinishedTooLongBuilds bs (criticalThreshold o)
                (snd (Get (requestURL o) w)) in
  let warn := filterUnfinishedTooLongBuilds bs (warningThreshold o) (snd crit) in
  let message (b : build) :=
    ("Build id = " ++ strconv.FormatInt (Number b) ++ " takes too long time")%string in
  let out := run ParseArgs Decode args w in
  match fst crit with
  | b :: _ =>
      out = (Return (checkers.NewChecker checkers.CRITICAL (message b)), snd crit)
      /\ ticks (snd out) = S (ticks w)
      /\ exists pre post,
           bs = pre ++ b :: post
           /\ tooLong (clock w (ticks w)) (criticalThreshold o) b = true
           /\ Forall (fun x => tooLong (clock w (ticks w)) (criticalThreshold o) x = false) pre
  | [] =>
      match fst warn with
      | b :: _ =>
          out = (Return (checkers.NewChecker checkers.WARNING (message b)), snd warn)
          /\ exists pre post,
               bs = pre ++ b :: post
               /\ tooLong (clock w (S (ticks w))) (warningThreshold o) b = true
               /\ Forall (fun x => tooLong (clock w (S (ticks w))) (warningThreshold o) x = false) pre
      | [] =>
          out = (Return (checkers.NewChecker checkers.OK
                           "No build that takes too long time exists"), snd warn)
      end
  end.
Proof.
  intros E1 E2. cbv zeta.
  rewrite (run_fetched ParseArgs Decode args o resp w E1 E2).
  rewrite filter_result. cbn [fst snd Get clock ticks endpoint requests].
  destruct (List.filter (tooLong (clock w (ticks w)) (criticalThreshold o)) _)
    as [|b rest] eqn:Ec.
  - rewrite filter_result. cbn [fst snd clock ticks endpoint requests].
    destruct (List.filter (tooLong (clock w (S (ticks w))) (warningThreshold o)) _)
      as [|b rest] eqn:Ew; [reflexivity|].
    split; [reflexivity|]. exact (filter_head _ _ _ _ Ew).
  - split; [reflexivity|]. split; [reflexivity|]. exact (filter_head _ _ _ _ Ec).
Qed.

Lemma severity_resolution_witness :
  fst (run Scenario.parse (Scenario.delivers Scenario.A) [] Scenario.up)
  = Return (checkers.NewChecker checkers.CRITICAL "Build id = 57 takes too long time").
Proof.
  exact (f_equal fst
           (proj1 (severity_resolution Scenario.parse (Scenario.delivers Scenario.A)
                     [] Scenario.opts (mkResponse 200 EmptyString) Scenario.up
                     eq_refl eq_refl))).
Defined.

(** C7.  When the arguments parse and the fetch fails, the check is
    UNKNOWN, its message ends in the text of the error, one request was
    made and the clock was never read; when the fetch succeeds the check
    is OK, WARNING or CRITICAL; either way the invocation hands back
    exactly one checker. *)
Theorem fetch_failure_is_unknown
    (ParseArgs : list string -> Opts + string)
    (Decode : string -> builds -> builds * option string)
    (args : list string) (o : Opts) (w : World) :
  ParseArgs args = inl o ->
  let out := run ParseArgs Decode args w in
  (forall e, endpoint w (requestURL o) = inr e ->
     exists c, fst out = Return c
       /\ checkers.St c = checkers.UNKNOWN
       /\ checkers.Message c = ("Faild to fetch jenkins metrics: " ++ e)%string
       /\ ticks (snd out) = ticks w)
  /\ (forall resp, endpoint w (requestURL o) = inl resp ->
        exists c, fst out = Return c
          /\ (checkers.St c = checkers.OK \/ checkers.St c = checkers.WARNING
              \/ checkers.St c = checkers.CRITICAL))
  /\ (exists c, fst out = Return c /\ forall c', fst out = Return c' -> c' = c)
  /\ requests (snd out) = requests w ++ [requestURL o].
Proof.
  intros E1. cbv zeta.
  destruct (endpoint w (requestURL o)) as [resp|e] eqn:E2.
  - pose proof (run_fetched ParseArgs Decode args o resp w E1 E2) as R.
    cbv zeta in R. rewrite R. clear R.
    split; [discriminate|].
    destruct (List.filter _ _) as [|b ?];
      [destruct (List.filter _ _) as [|b ?]|]; cbn [fst snd after requests].
    all: split; [intros ? [= <-]; eexists; split; [reflexivity|cbn; tauto]|].
    all: split; [eexists; split; [reflexivity|congruence]|reflexivity].
  - rewrite (run_failed ParseArgs Decode args o e w E1 E2). cbn [fst snd after requests ticks].
    split; [intros ? [= <-]; eexists; repeat split|].
    split; [discriminate|].
    split; [eexists; split; [reflexivity|congruence]|reflexivity].
Qed.

Lemma fetch_failure_is_unknown_witness :
  exists c,
    fst (run Scenario.parse (Scenario.delivers Scenario.A) [] Scenario.down) = Return c
    /\ checkers.St c = checkers.UNKNOWN
    /\ checkers.Message c
       = ("Faild to fetch jenkins metrics: " ++ Scenario.refused)%string
    /\ ticks (snd (run Scenario.parse (Scenario.delivers Scenario.A) [] Scenario.down)) = O.
Proof.
  exact (proj1 (fetch_failure_is_unknown Scenario.parse (Scenario.delivers Scenario.A)
                  [] Scenario.opts Scenario.down eq_refl)
           Scenario.refused eq_refl).
Defined.

(** What the two tests find in a list, read off the filter. *)
Lemma late_iff_filter (bs : list build) now (T : time.Duration) :
  (exists b, In b bs /\ Result b = None
             /\ time.Sub now (toTime (Timestamp b)) > T)
  <-> List.filter (tooLong now T) bs <> [].
Proof.
  split.
  - intros (b & Hb & Hr & Hs) E.
    assert (Hin : In b (List.filter (tooLong now T) bs))
      by (apply filter_In; split; [exact Hb|now apply tooLong_spec]).
    rewrite E in Hin. destruct Hin.
  - destruct (List.filter (tooLong now T) bs) as [|a rest] eqn:E; [congruence|].
    intros _. assert (Hin : In a (List.filter (tooLong now T) bs))
      by (rewrite E; now left).
    apply filter_In in Hin. destruct Hin as [Ha Hp].
    apply tooLong_spec in Hp. now exists a.
Qed.

Lemma filter_head_unfinished (bs : list build) now (T : time.Duration) b rest :
  List.filter (tooLong now T) bs = b :: rest -> In b bs /\ Result b = None.
Proof.
  intros E. assert (Hin : In b (List.filter (tooLong now T) bs))
    by (rewrite E; now left).
  apply filter_In in Hin. destruct Hin as [Hb Hp].
  apply tooLong_spec in Hp. tauto.
Qed.

(** C9.  After a fetch that succeeded, whatever the decoder reports,
    error or not, the check goes on and judges the builds the decoder
    left in the variable, which started as the zero value.  The checker
    handed back is never UNKNOWN: it is CRITICAL exactly when one of those
    builds is unfinished and older than the critical threshold at the
    first clock reading, WARNING exactly when none is but one is older
    than the warning threshold at the second reading, OK otherwise, and a
    checker that is not OK names one of those builds.  The decoder's error
    has no part in it, and when nothing was decoded the check is OK. *)
Theorem decode_errors_ignored
    (ParseArgs : list string -> Opts + string)
    (Decode : string -> builds -> builds * option string)
    (args : list string) (o : Opts) (resp : Response) (w : World) :
  ParseArgs args = inl o ->
  endpoint w (requestURL o) = inl resp ->
  (exists c, fst (run ParseArgs Decode args w) = Return c
             /\ checkers.St c <> checkers.UNKNOWN)
  /\ (forall Decode' : string -> builds -> builds * option string,
        fst (Decode' (Body resp) zeroBuilds) = fst (Decode (Body resp) zeroBuilds) ->
        run ParseArgs Decode' args w = run ParseArgs Decode args w)
  /\ (fst (Decode (Body resp) zeroBuilds) = zeroBuilds ->
      fst (run ParseArgs Decode args w)
      = Return (checkers.NewChecker checkers.OK
                  "No build that takes too long time exists"))
  /\ (let left := Builds (fst (Decode (Body resp) zeroBuilds)) in
      let late (now : time.Time) (T : time.Duration) :=
        exists b, In b left /\ Result b = None
                  /\ time.Sub now (toTime (Timestamp b)) > T in
      let critical := late (clock w (ticks w)) (criticalThreshold o) in
      let warning := late (clock w (S (ticks w))) (warningThreshold o) in
      exists c, fst (run ParseArgs Decode args w) = Return c
        /\ (checkers.St c = checkers.CRITICAL <-> critical)
        /\ (checkers.St c = checkers.WARNING <-> ~ critical /\ warning)
        /\ (checkers.St c = checkers.OK <-> ~ critical /\ ~ warning)
        /\ (checkers.St c <> checkers.OK ->
            exists b, In b left /\ Result b = None
              /\ checkers.Message c
                 = ("Build id = " ++ strconv.FormatInt (Number b)
                    ++ " takes too long time")%string)).
Proof.
  intros E1 E2. split; [|split; [|split]].
  - pose proof (run_fetched ParseArgs Decode args o resp w E1 E2) as R.
    cbv zeta in R. rewrite R.
    destruct (List.filter _ _) as [|b ?];
      [destruct (List.filter _ _) as [|b ?]|];
      eexists; (split; [reflexivity|cbn; discriminate]).
  - intros Decode' E.
    rewrite (run_fetched ParseArgs Decode' args o resp w E1 E2).
    rewrite (run_fetched ParseArgs Decode args o resp w E1 E2).
    cbv zeta. now rewrite E.
  - intros E.
    rewrite (run_fetched ParseArgs Decode args o resp w E1 E2).
    cbv zeta. rewrite E. reflexivity.
  - cbv zeta.
    rewrite (run_fetched ParseArgs Decode args o resp w E1 E2). cbv zeta.
    set (bs := Builds (fst (Decode (Body resp) zeroBuilds))).
    pose proof (late_iff_filter bs (clock w (ticks w)) (criticalThreshold o)) as Xc.
    pose proof (late_iff_filter bs (clock w (S (ticks w))) (warningThreshold o)) as Xw.
    destruct (List.filter (tooLong (clock w (ticks w)) (criticalThreshold o)) bs)
      as [|b rest] eqn:Ec.
    + assert (Nc : ~ exists b, In b bs /\ Result b = None
                    /\ time.Sub (clock w (ticks w)) (toTime (Timestamp b))
                       > criticalThreshold o)
        by (intros H; apply Xc in H; congruence).
      destruct (List.filter (tooLong (clock w (S (ticks w))) (warningThreshold o)) bs)
        as [|b rest] eqn:Ew.
      * assert (Nw : ~ exists b, In b bs /\ Result b = None
                      /\ time.Sub (clock w (S (ticks w))) (toTime (Timestamp b))
                         > warningThreshold o)
          by (intros H; apply Xw in H; congruence).
        eexists. split; [reflexivity|].
        cbn [fst checkers.St checkers.NewChecker].
        repeat split; try discriminate; try tauto; congruence.
      * assert (Yw : exists b, In b bs /\ Result b = None
                      /\ time.Sub (clock w (S (ticks w))) (toTime (Timestamp b))
                         > warningThreshold o)
          by (apply Xw; discriminate).
        destruct (filter_head_unfinished _ _ _ _ _ Ew) as [Hb Hr].
        eexists. split; [reflexivity|].
        cbn [fst checkers.St checkers.Message checkers.NewChecker].
        repeat split; try discriminate; try tauto.
        intros _. now exists b.
    + assert (Yc : exists b, In b bs /\ Result b = None
                    /\ time.Sub (clock w (ticks w)) (toTime (Timestamp b))
                       > criticalThreshold o)
        by (apply Xc; discriminate).
      destruct (filter_head_unfinished _ _ _ _ _ Ec) as [Hb Hr].
      eexists. split; [reflexivity|].
      cbn [fst checkers.St checkers.Message checkers.NewChecker].
      repeat split; try discriminate; try tauto.
      intros _. now exists b.
Qed.

(** The decoder stops with an error after it stored build 57, which has
    run for 400 s: the check is CRITICAL all the same. *)
Lemma decode_errors_ignored_witness :
  snd (Scenario.stopsHalfway Scenario.A EmptyString zeroBuilds) <> None
  /\ exists c,
       fst (run Scenario.parse (Scenario.stopsHalfway Scenario.A) [] Scenario.up)
       = Return c
       /\ checkers.St c = checkers.CRITICAL.
Proof.
  split; [discriminate|].
  destruct (proj2 (proj2 (proj2
              (decode_errors_ignored Scenario.parse (Scenario.stopsHalfway Scenario.A)
                 [] Scenario.opts (mkResponse 200 EmptyString) Scenario.up
                 eq_refl eq_refl))))
    as (c & Hc & Hcrit & _).
  exists c. split; [exact Hc|]. apply Hcrit.
  exists (mkBuild 57 None (Scenario.started 400)).
  split; [left; reflexivity|]. split; [reflexivity|]. vm_compute. reflexivity.
Defined.

(** * Further properties *)

(** ** More on the time arithmetic *)

Section MoreTimeFacts.
Import time.

Lemma Sub_bounds t u : minDuration <= Sub t u <= maxDuration.
Proof.
  unfold Sub. pose proof (wrap_range
    ((unixSec t - unixSec u) * Second + (nsec t - nsec u))) as H.
  unfold int64.inRange in H. unfold minDuration, maxDuration.
  destruct (Equal _ t); [exact H|].
  destruct (Before t u); unfold int64.min, int64.max; lia.
Qed.

Lemma saturate_mono a b : a <= b -> saturate a <= saturate b.
Proof.
  intros H. unfold saturate, minDuration, maxDuration, int64.min, int64.max.
  repeat match goal with
         | |- context [?x <? ?y] => destruct (Z.ltb_spec x y)
         | |- context [?x >? ?y] => destruct (Z.gtb_spec x y)
         end; lia.
Qed.

Lemma saturate_sign a : a <= 0 -> saturate a <= 0.
Proof.
  intros H. unfold saturate, minDuration, maxDuration, int64.min, int64.max.
  repeat match goal with
         | |- context [?x <? ?y] => destruct (Z.ltb_spec x y)
         | |- context [?x >? ?y] => destruct (Z.gtb_spec x y)
         end; lia.
Qed.

Lemma Sub_mono_left t1 t2 u :
  wf t1 -> wf t2 -> wf u -> nanos t1 <= nanos t2 -> Sub t1 u <= Sub t2 u.
Proof.
  intros H1 H2 Hu H. rewrite !Sub_saturates by assumption.
  apply saturate_mono. lia.
Qed.

Lemma Sub_not_positive t u :
  wf t -> wf u -> nanos t <= nanos u -> Sub t u <= 0.
Proof.
  intros Ht Hu H. rewrite Sub_saturates by assumption.
  apply saturate_sign. lia.
Qed.

End MoreTimeFacts.

Lemma Sub_not_negative t u :
  time.wf t -> time.wf u -> time.nanos u <= time.nanos t -> 0 <= time.Sub t u.
Proof.
  intros Ht Hu H. rewrite Sub_saturates by assumption.
  unfold time.saturate, time.minDuration, time.maxDuration, int64.min, int64.max.
  repeat match goal with
         | |- context [?x <? ?y] => destruct (Z.ltb_spec x y)
         | |- context [?x >? ?y] => destruct (Z.gtb_spec x y)
         end; lia.
Qed.

(** Closed numeric side conditions. *)
Ltac by_computation :=
  vm_compute; repeat split; first [reflexivity | discriminate].

(** ** More on the filter *)

Section MoreFilterFacts.

Lemma filter_nil_iff (p : build -> bool) (l : list build) :
  List.filter p l = [] <-> forall b, In b l -> p b = false.
Proof.
  induction l as [|a l IH]; cbn; [tauto|].
  destruct (p a) eqn:Ha.
  - split; [discriminate|]. intros H. specialize (H a (or_introl eq_refl)). congruence.
  - rewrite IH. split.
    + intros H b [<-|Hb]; auto.
    + intros H b Hb. apply H. now right.
Qed.

Lemma filter_same (p q : build -> bool) (l : list build) :
  (forall b, In b l -> p b = q b) -> List.filter p l = List.filter q l.
Proof.
  induction l as [|a l IH]; cbn; [reflexivity|]. intros H.
  rewrite (H a (or_introl eq_refl)), IH; [reflexivity|].
  intros b Hb. apply H. now right.
Qed.

Lemma filter_filter (p q : build -> bool) (l : list build) :
  List.filter p (List.filter q l) = List.filter (fun b => q b && p b) l.
Proof.
  induction l as [|a l IH]; cbn; [reflexivity|].
  destruct (q a); cbn; [destruct (p a)|]; now rewrite IH.
Qed.

Lemma tooLong_false now T b :
  tooLong now T b = false
  <-> Result b <> None \/ time.Sub now (toTime (Timestamp b)) <= T.
Proof.
  pose proof (tooLong_spec now T b) as H.
  destruct (tooLong now T b).
  - split; [discriminate|]. intros [Hr|Hs]; destruct H as [H _];
      destruct (H eq_refl); [congruence|lia].
  - split; [|reflexivity]. intros _.
    destruct (Result b) eqn:E; [left; discriminate|].
    right. destruct (Z.le_gt_cases (time.Sub now (toTime (Timestamp b))) T); [assumption|].
    destruct H as [_ H]. assert (false = true) by (apply H; split; [reflexivity|lia]).
    discriminate.
Qed.

End MoreFilterFacts.

(** X1.  The call on a concatenation is the concatenation of the calls, all
    taken at the same clock reading. *)
Theorem filter_app (w : World) (l1 l2 : list build) (T : time.Duration) :
  fst (filterUnfinishedTooLongBuilds (l1 ++ l2) T w)
  = fst (filterUnfinishedTooLongBuilds l1 T w)
    ++ fst (filterUnfinishedTooLongBuilds l2 T w).
Proof. rewrite !filter_result. cbn [fst]. apply List.filter_app. Qed.

(** X2.  Builds that already have a result can be taken out of the input
    beforehand without changing what the call returns. *)
Theorem filter_ignores_finished (w : World) (bs : list build) (T : time.Duration) :
  fst (filterUnfinishedTooLongBuilds (List.filter isUnfinished bs) T w)
  = fst (filterUnfinishedTooLongBuilds bs T w).
Proof.
  rewrite !filter_result. cbn [fst]. rewrite filter_filter.
  apply filter_same. intros b _. unfold tooLong.
  destruct (isUnfinished b); reflexivity.
Qed.

(** X3.  Calling the filter on its own result, at the same clock reading:
    with a threshold no larger nothing more is removed, and with a larger
    one the result is that of the larger threshold on the input. *)
Theorem filter_compose (w w' : World) (bs : list build) (T1 T2 : time.Duration) :
  clock w' (ticks w') = clock w (ticks w) ->
  T2 <= T1 ->
  fst (filterUnfinishedTooLongBuilds
         (fst (filterUnfinishedTooLongBuilds bs T1 w)) T2 w')
  = fst (filterUnfinishedTooLongBuilds bs T1 w)
  /\ fst (filterUnfinishedTooLongBuilds
            (fst (filterUnfinishedTooLongBuilds bs T2 w)) T1 w')
     = fst (filterUnfinishedTooLongBuilds bs T1 w).
Proof.
  intros Hc HT. rewrite !filter_result. cbn [fst]. rewrite Hc, !filter_filter.
  split; apply filter_same; intros b _.
  - destruct (tooLong (clock w (ticks w)) T1 b) eqn:E; [|reflexivity].
    cbn. exact (tooLong_antitone _ _ _ _ HT E).
  - destruct (tooLong (clock w (ticks w)) T1 b) eqn:E.
    + now rewrite (tooLong_antitone _ _ _ _ HT E).
    + apply andb_false_r.
Qed.

Lemma filter_compose_witness :
  let w := Scenario.up in
  let bs := Scenario.A ++ Scenario.B in
  fst (filterUnfinishedTooLongBuilds
         (fst (filterUnfinishedTooLongBuilds bs 60000000000 w)) 300000000000 w)
  = fst (filterUnfinishedTooLongBuilds bs 300000000000 w).
Proof.
  cbv zeta.
  exact (proj2 (filter_compose Scenario.up Scenario.up (Scenario.A ++ Scenario.B)
                  300000000000 60000000000 eq_refl ltac:(lia))).
Defined.

(** X4.  The call returns nothing exactly when every build of the input has a
    result or has run for at most the threshold. *)
Theorem filter_empty_iff (w : World) (bs : list build) (T : time.Duration) :
  fst (filterUnfinishedTooLongBuilds bs T w) = []
  <-> forall b, In b bs ->
        Result b <> None
        \/ time.Sub (clock w (ticks w)) (toTime (Timestamp b)) <= T.
Proof.
  rewrite filter_result. cbn [fst]. rewrite filter_nil_iff.
  split; intros H b Hb; apply tooLong_false, H, Hb.
Qed.

(** X5.  Thresholds at the edges of the elapsed time.  No elapsed time
    exceeds the largest duration, so with that threshold nothing is
    returned, however old a build is.  With a threshold below zero the
    elapsed-time test lets every build through that did not start after
    the clock reading, so the result is the unfinished builds, all of
    them. *)
Theorem filter_extreme_thresholds (w : World) (bs : list build) (T : time.Duration) :
  (time.maxDuration <= T -> fst (filterUnfinishedTooLongBuilds bs T w) = [])
  /\ (time.minDuration <= T < 0 ->
      time.wf (clock w (ticks w)) ->
      (forall b, In b bs ->
         time.wf (toTime (Timestamp b))
         /\ time.nanos (toTime (Timestamp b)) <= time.nanos (clock w (ticks w))) ->
      fst (filterUnfinishedTooLongBuilds bs T w) = List.filter isUnfinished bs).
Proof.
  rewrite filter_result. cbn [fst]. split.
  - intros HT. apply filter_nil_iff. intros b _. apply tooLong_false. right.
    pose proof (Sub_bounds (clock w (ticks w)) (toTime (Timestamp b))). lia.
  - intros HT Hn Hbs. apply filter_same. intros b Hb. unfold tooLong.
    destruct (Hbs b Hb) as [Hwf Hle].
    pose proof (Sub_not_negative _ _ Hn Hwf Hle).
    destruct (Z.gtb_spec (time.Sub (clock w (ticks w)) (toTime (Timestamp b))) T);
      [apply andb_true_r|lia].
Qed.

Lemma filter_extreme_thresholds_witness :
  fst (filterUnfinishedTooLongBuilds
         [mkBuild 0 None time.zero] time.maxDuration Scenario.up) = []
  /\ fst (filterUnfinishedTooLongBuilds
            (Scenario.C ++ [mkBuild 7 None (Scenario.started 1)]) (-1) Scenario.up)
     = [mkBuild 7 None (Scenario.started 1)].
Proof.
  split.
  - exact (proj1 (filter_extreme_thresholds Scenario.up [mkBuild 0 None time.zero]
                    time.maxDuration) ltac:(unfold time.maxDuration; lia)).
  - apply (proj2 (filter_extreme_thresholds Scenario.up
                    (Scenario.C ++ [mkBuild 7 None (Scenario.started 1)]) (-1)));
      [by_computation|by_computation|].
    intros b [<-|[<-|[]]]; by_computation.
Defined.

(** X6.  A build whose timestamp is not before the clock reading is never
    returned for a threshold that is not negative. *)
Theorem filter_future_timestamp (w : World) (bs : list build) (T : time.Duration) (b : build) :
  time.wf (clock w (ticks w)) -> time.wf (toTime (Timestamp b)) ->
  0 <= T ->
  time.nanos (clock w (ticks w)) <= time.nanos (toTime (Timestamp b)) ->
  ~ In b (fst (filterUnfinishedTooLongBuilds bs T w)).
Proof.
  intros Hn Hb HT Hle. rewrite filter_result. cbn [fst].
  rewrite filter_In, tooLong_spec.
  pose proof (Sub_not_positive _ _ Hn Hb Hle). lia.
Qed.

Lemma filter_future_timestamp_witness :
  ~ In (mkBuild 60 None (Scenario.started (-5)))
       (fst (filterUnfinishedTooLongBuilds
               [mkBuild 60 None (Scenario.started (-5))] 0 Scenario.up)).
Proof.
  apply filter_future_timestamp; by_computation.
Defined.

(** X7.  While a build stays unfinished, a later clock reading never takes it
    out of the result: what is returned at one reading is returned at
    every reading that is not earlier. *)
Theorem filter_later_clock (w1 w2 : World) (bs : list build) (T : time.Duration) (b : build) :
  time.wf (clock w1 (ticks w1)) -> time.wf (clock w2 (ticks w2)) ->
  time.wf (toTime (Timestamp b)) ->
  time.nanos (clock w1 (ticks w1)) <= time.nanos (clock w2 (ticks w2)) ->
  In b (fst (filterUnfinishedTooLongBuilds bs T w1)) ->
  In b (fst (filterUnfinishedTooLongBuilds bs T w2)).
Proof.
  intros H1 H2 Hb Hle. rewrite !filter_result. cbn [fst].
  rewrite !filter_In, !tooLong_spec.
  pose proof (Sub_mono_left _ _ _ H1 H2 Hb Hle). intuition lia.
Qed.

Lemma filter_later_clock_witness :
  let w2 := mkWorld (fun _ => time.mkTime 1503150000 0) 0 (fun _ => inr EmptyString) [] in
  In (mkBuild 57 None (Scenario.started 400))
     (fst (filterUnfinishedTooLongBuilds Scenario.A 300000000000 w2)).
Proof.
  cbv zeta.
  apply (filter_later_clock Scenario.up); [by_computation ..|].
  vm_compute. left. reflexivity.
Defined.

(** ** More on the check *)

Section MoreRunFacts.

Lemma filter_cons_exists (p : build -> bool) (l : list build) :
  (exists b rest, List.filter p l = b :: rest) <-> exists b, In b l /\ p b = true.
Proof.
  split.
  - intros (b & rest & E). exists b. apply filter_In. rewrite E. now left.
  - intros (b & Hb). apply filter_In in Hb.
    destruct (List.filter p l) as [|a rest]; [destruct Hb|]. now exists a, rest.
Qed.

End MoreRunFacts.

(** X8.  After a fetch that succeeded the verdict is decided by the two tests
    alone.  It is CRITICAL exactly when some decoded build is unfinished
    and older than the critical threshold at the first clock reading; it
    is WARNING exactly when none is, but some build is unfinished and
    older than the warning threshold at the second reading; it is OK
    exactly when neither holds. *)
Theorem run_verdict_iff
    (ParseArgs : list string -> Opts + string)
    (Decode : string -> builds -> builds * option string)
    (args : list string) (o : Opts) (resp : Response) (w : World) :
  ParseArgs args = inl o ->
  endpoint w (requestURL o) = inl resp ->
  let bs := Builds (fst (Decode (Body resp) zeroBuilds)) in
  let late (now : time.Time) (T : time.Duration) (b : build) :=
    In b bs /\ Result b = None /\ time.Sub now (toTime (Timestamp b)) > T in
  let critical := exists b, late (clock w (ticks w)) (criticalThreshold o) b in
  let warning := exists b, late (clock w (S (ticks w))) (warningThreshold o) b in
  exists c, fst (run ParseArgs Decode args w) = Return c
    /\ (checkers.St c = checkers.CRITICAL <-> critical)
    /\ (checkers.St c = checkers.WARNING <-> ~ critical /\ warning)
    /\ (checkers.St c = checkers.OK <-> ~ critical /\ ~ warning).
Proof.
  intros E1 E2. cbv zeta.
  rewrite (run_fetched ParseArgs Decode args o resp w E1 E2). cbv zeta.
  set (bs := Builds (fst (Decode (Body resp) zeroBuilds))).
  assert (X : forall now T,
             (exists b rest, List.filter (tooLong now T) bs = b :: rest)
             <-> exists b, In b bs /\ Result b = None
                           /\ time.Sub now (toTime (Timestamp b)) > T).
  { intros now T. rewrite filter_cons_exists.
    split; intros (b & Hb & Hp); exists b; split; trivial; now apply tooLong_spec. }
  pose proof (X (clock w (ticks w)) (criticalThreshold o)) as Xc.
  pose proof (X (clock w (S (ticks w))) (warningThreshold o)) as Xw.
  destruct (List.filter (tooLong (clock w (ticks w)) (criticalThreshold o)) bs)
    as [|b rest].
  - assert (Nc : ~ exists b, In b bs /\ Result b = None
                  /\ time.Sub (clock w (ticks w)) (toTime (Timestamp b)) > criticalThreshold o).
    { intros H. apply Xc in H. destruct H as (? & ? & ?). discriminate. }
    destruct (List.filter (tooLong (clock w (S (ticks w))) (warningThreshold o)) bs)
      as [|b rest].
    + assert (Nw : ~ exists b, In b bs /\ Result b = None
                    /\ time.Sub (clock w (S (ticks w))) (toTime (Timestamp b)) > warningThreshold o).
      { intros H. apply Xw in H. destruct H as (? & ? & ?). discriminate. }
      eexists. split; [reflexivity|]. cbn [fst checkers.St checkers.NewChecker].
      repeat split; try discriminate; tauto.
    + assert (Yw : exists b, In b bs /\ Result b = None
                    /\ time.Sub (clock w (S (ticks w))) (toTime (Timestamp b)) > warningThreshold o).
      { apply Xw. now exists b, rest. }
      eexists. split; [reflexivity|]. cbn [fst checkers.St checkers.NewChecker].
      repeat split; try discriminate; tauto.
  - assert (Yc : exists b, In b bs /\ Result b = None
                  /\ time.Sub (clock w (ticks w)) (toTime (Timestamp b)) > criticalThreshold o).
    { apply Xc. now exists b, rest. }
    eexists. split; [reflexivity|]. cbn [fst checkers.St checkers.NewChecker].
    repeat split; try discriminate; tauto.
Qed.

Lemma run_verdict_iff_witness :
  exists c, fst (run Scenario.parse (Scenario.delivers Scenario.B) [] Scenario.up) = Return c
            /\ checkers.St c = checkers.WARNING.
Proof.
  destruct (run_verdict_iff Scenario.parse (Scenario.delivers Scenario.B) []
              Scenario.opts (mkResponse 200 EmptyString) Scenario.up eq_refl eq_refl)
    as (c & Hc & _ & Hw & _).
  exists c. split; [exact Hc|]. apply Hw. split.
  - intros (b & [Hb|[]] & _ & Hs). subst b. vm_compute in Hs. discriminate.
  - exists (mkBuild 51 None (Scenario.started 90)).
    split; [left; reflexivity|]. split; [reflexivity|]. vm_compute. reflexivity.
Defined.

(** X9.  When every decoded build has a result the check is OK, whatever the
    timestamps, the thresholds and the clock say; this covers the empty
    list. *)
Theorem run_all_finished_ok
    (ParseArgs : list string -> Opts + string)
    (Decode : string -> builds -> builds * option string)
    (args : list string) (o : Opts) (resp : Response) (w : World) :
  ParseArgs args = inl o ->
  endpoint w (requestURL o) = inl resp ->
  (forall b, In b (Builds (fst (Decode (Body resp) zeroBuilds))) -> Result b <> None) ->
  fst (run ParseArgs Decode args w)
  = Return (checkers.NewChecker checkers.OK
              "No build that takes too long time exists").
Proof.
  intros E1 E2 Hfin.
  rewrite (run_fetched ParseArgs Decode args o resp w E1 E2). cbv zeta.
  assert (N : forall now T,
             List.filter (tooLong now T) (Builds (fst (Decode (Body resp) zeroBuilds))) = []).
  { intros now T. apply filter_nil_iff. intros b Hb.
    apply tooLong_false. left. now apply Hfin. }
  now rewrite !N.
Qed.

Lemma run_all_finished_ok_witness :
  fst (run Scenario.parse (Scenario.delivers Scenario.C) [] Scenario.up)
  = Return (checkers.NewChecker checkers.OK
              "No build that takes too long time exists").
Proof.
  apply (run_all_finished_ok _ _ _ Scenario.opts (mkResponse 200 EmptyString));
    [reflexivity|reflexivity|].
  intros b [<-|[]]. discriminate.
Defined.

(** X10.  What an invocation does to the world.  Arguments that do not parse
    end it with exit code 1 before anything is requested or the clock is
    read.  Otherwise exactly one URL is requested, the one built from the
    options, the clock is read at most twice, and a checker is handed
    back. *)
Theorem run_effects
    (ParseArgs : list string -> Opts + string)
    (Decode : string -> builds -> builds * option string)
    (args : list string) (w : World) :
  let out := run ParseArgs Decode args w in
  match ParseArgs args with
  | inr _ => out = (Exit 1, w)
  | inl o =>
      (exists c, fst out = Return c)
      /\ requests (snd out) = requests w ++ [requestURL o]
      /\ (ticks w <= ticks (snd out) <= 2 + ticks w)%nat
      /\ clock (snd out) = clock w
      /\ endpoint (snd out) = endpoint w
  end.
Proof.
  cbv zeta. destruct (ParseArgs args) as [o|e] eqn:E1.
  - destruct (endpoint w (requestURL o)) as [resp|err] eqn:E2.
    + rewrite (run_fetched ParseArgs Decode args o resp w E1 E2). cbv zeta.
      destruct (List.filter _ _) as [|b ?];
        [destruct (List.filter _ _) as [|b ?]|];
        cbn [fst snd after requests ticks clock endpoint];
        (split; [eexists; reflexivity|]); repeat split; lia.
    + rewrite (run_failed ParseArgs Decode args o err w E1 E2).
      cbn [fst snd after requests ticks clock endpoint].
      (split; [eexists; reflexivity|]); repeat split; lia.
  - now apply run_exit with (e := e).
Qed.

(** X11.  With a clock that does not run backwards between its two readings,
    no late build is missed: if at the first reading some decoded build is
    unfinished and older than the warning threshold, the check is not
    OK. *)
Theorem run_late_build_not_ok
    (ParseArgs : list string -> Opts + string)
    (Decode : string -> builds -> builds * option string)
    (args : list string) (o : Opts) (resp : Response) (w : World) (b : build) :
  ParseArgs args = inl o ->
  endpoint w (requestURL o) = inl resp ->
  time.wf (clock w (ticks w)) -> time.wf (clock w (S (ticks w))) ->
  time.nanos (clock w (ticks w)) <= time.nanos (clock w (S (ticks w))) ->
  In b (Builds (fst (Decode (Body resp) zeroBuilds))) ->
  time.wf (toTime (Timestamp b)) ->
  Result b = None ->
  time.Sub (clock w (ticks w)) (toTime (Timestamp b)) > warningThreshold o ->
  exists c, fst (run ParseArgs Decode args w) = Return c
            /\ (checkers.St c = checkers.WARNING \/ checkers.St c = checkers.CRITICAL).
Proof.
  intros E1 E2 H1 H2 Hle Hb Hwf Hr Hs.
  rewrite (run_fetched ParseArgs Decode args o resp w E1 E2). cbv zeta.
  destruct (List.filter (tooLong (clock w (ticks w)) _) _) as [|c ?];
    [|eexists; split; [reflexivity|now right]].
  destruct (List.filter (tooLong (clock w (S (ticks w))) _) _) as [|c ?] eqn:Ew;
    [|eexists; split; [reflexivity|now left]].
  exfalso. rewrite filter_nil_iff in Ew. specialize (Ew b Hb).
  apply tooLong_false in Ew. destruct Ew as [Ew|Ew]; [congruence|].
  pose proof (Sub_mono_left _ _ _ H1 H2 Hwf Hle). lia.
Qed.

Lemma run_late_build_not_ok_witness :
  exists c, fst (run Scenario.parse (Scenario.delivers Scenario.B) [] Scenario.up) = Return c
            /\ (checkers.St c = checkers.WARNING \/ checkers.St c = checkers.CRITICAL).
Proof.
  apply (run_late_build_not_ok _ _ _ Scenario.opts (mkResponse 200 EmptyString) _
           (mkBuild 51 None (Scenario.started 90)));
    try reflexivity; try by_computation.
  left. reflexivity.
Defined.

(** X12.  The thresholds are the configured seconds times [time.Second]
    exactly when the seconds lie between -9223372036 and 9223372036;
    outside that range the int64 product wraps around. *)
Theorem thresholds_exact_iff (o : Opts) :
  (criticalThreshold o = time.Second * CritSecond o
   <-> -9223372036 <= CritSecond o <= 9223372036)
  /\ (warningThreshold o = time.Second * WarningSecond o
      <-> -9223372036 <= WarningSecond o <= 9223372036).
Proof.
  assert (G : forall s, int64.wrap (time.Second * s) = time.Second * s
                        <-> -9223372036 <= s <= 9223372036).
  { intros s. split.
    - intros H. apply wrap_fixed in H.
      unfold int64.inRange, int64.min, int64.max, time.Second in H. lia.
    - intros H. apply wrap_in_range.
      unfold int64.inRange, int64.min, int64.max, time.Second. lia. }
  split; apply G.
Qed.

(** ** More on the adapter and the message *)

Section MoreStringFacts.
Import strconv.

Lemma string_app_length (s t : string) :
  String.length (s ++ t) = (String.length s + String.length t)%nat.
Proof. induction s as [|c s IH]; cbn; [reflexivity|now rewrite IH]. Qed.

Lemma string_app_inv_tail (t : string) : forall s1 s2 : string,
  (s1 ++ t)%string = (s2 ++ t)%string -> s1 = s2.
Proof.
  induction s1 as [|c1 s1 IH]; intros [|c2 s2] H; cbn in H.
  - reflexivity.
  - apply (f_equal String.length) in H. cbn in H.
    rewrite string_app_length in H. lia.
  - apply (f_equal String.length) in H. cbn in H.
    rewrite string_app_length in H. lia.
  - injection H as -> H. f_equal. now apply IH.
Qed.

Lemma string_app_inv_head (p : string) : forall s1 s2 : string,
  (p ++ s1)%string = (p ++ s2)%string -> s1 = s2.
Proof.
  induction p as [|c p IH]; intros s1 s2 H; cbn in H; [exact H|].
  injection H as H. now apply IH.
Qed.

Lemma FormatInt_inj a b :
  int64.inRange a -> int64.inRange b -> FormatInt a = FormatInt b -> a = b.
Proof.
  intros Ha Hb E.
  assert (Some a = Some b) as [= ->]; [|reflexivity].
  rewrite <- (decimalValue_FormatInt a), <- (decimalValue_FormatInt b), E;
    [reflexivity|..];
    unfold int64.inRange, int64.min, int64.max in *; lia.
Qed.

(** The shape of every error [ParseInt] returns. *)
Lemma ParseInt_error s e :
  snd (ParseInt s) = Some e ->
  Func e = fnParseInt /\ Num e = s /\ (Err e = ErrSyntax \/ Err e = ErrRange).
Proof.
  destruct s as [|c rest].
  - cbn. intros [= <-]. cbn. auto.
  - unfold ParseInt.
    destruct (if Ascii.eqb c "+" then (false, rest)
              else if Ascii.eqb c "-" then (true, rest)
              else (false, String c rest)) as [neg s'].
    destruct (ParseUint s') as [un [[f n [|]]|]].
    + cbn. intros [= <-]. cbn. auto.
    + cbv zeta.
      destruct (negb neg && _); [cbn; intros [= <-]; cbn; auto|].
      destruct (neg && _); [cbn; intros [= <-]; cbn; auto|].
      cbn. discriminate.
    + cbv zeta.
      destruct (negb neg && _); [cbn; intros [= <-]; cbn; auto|].
      destruct (neg && _); [cbn; intros [= <-]; cbn; auto|].
      cbn. discriminate.
Qed.

Lemma allDigits_junk a c b :
  isDigit c = false -> allDigits (a ++ String c b) = false.
Proof.
  intros Hc. induction a as [|x a IH]; cbn; [now rewrite Hc|].
  rewrite IH. apply andb_false_r.
Qed.

Lemma digitsOnly_junk a c b :
  isDigit c = false -> digitsOnly (a ++ String c b) = false.
Proof.
  intros Hc. pose proof (allDigits_junk a c b Hc) as H.
  destruct a; exact H.
Qed.

Lemma decimalValue_junk a c b :
  isDigit c = false -> c <> "+"%char -> c <> "-"%char ->
  decimalValue (a ++ String c b) = None.
Proof.
  intros Hc Hp Hm. destruct a as [|x a].
  - cbn [append]. unfold decimalValue.
    destruct (Ascii.eqb_spec c "+"); [contradiction|].
    destruct (Ascii.eqb_spec c "-"); [contradiction|].
    pose proof (digitsOnly_junk EmptyString c b Hc) as H. cbn [append] in H.
    now rewrite H.
  - cbn [append]. unfold decimalValue.
    rewrite (digitsOnly_junk a c b Hc).
    pose proof (digitsOnly_junk (String x a) c b Hc) as H. cbn [append] in H.
    rewrite H.
    destruct (Ascii.eqb x "+"); [reflexivity|].
    destruct (Ascii.eqb x "-"); reflexivity.
Qed.

Lemma UnmarshalJSON_refuses t s :
  decimalInt64 (strings.Replace s quote) = false -> snd (UnmarshalJSON t s) <> None.
Proof.
  intros H. unfold UnmarshalJSON.
  pose proof (ParseInt_ok_iff (strings.Replace s quote)) as X.
  destruct (ParseInt _) as [q [e|]]; cbn in *; [discriminate|].
  destruct X as [X _]. rewrite X in H; [discriminate|reflexivity].
Qed.

End MoreStringFacts.

(** X13.  The message of a CRITICAL or WARNING verdict tells the build apart:
    two builds get the same message only if they have the same number. *)
Theorem tooLongMessage_injective (b1 b2 : build) :
  int64.inRange (Number b1) -> int64.inRange (Number b2) ->
  tooLongMessage b1 = tooLongMessage b2 -> Number b1 = Number b2.
Proof.
  intros H1 H2 E. unfold tooLongMessage in E.
  apply string_app_inv_head in E. apply string_app_inv_tail in E.
  now apply FormatInt_inj.
Qed.

Lemma tooLongMessage_injective_witness :
  Number (mkBuild 57 None time.zero) = Number (mkBuild 57 (Some EmptyString) Scenario.now).
Proof.
  apply tooLongMessage_injective; [by_computation|by_computation|reflexivity].
Defined.

(** X14.  The error [UnmarshalJSON] returns is the one of [strconv.ParseInt]:
    it names that function, quotes the input with the quotes removed, and
    is a syntax or a range error. *)
Theorem UnmarshalJSON_error_value (t : jsonTime) (s : string) (e : strconv.NumError) :
  snd (UnmarshalJSON t s) = Some e ->
  strconv.Func e = "ParseInt"%string
  /\ strconv.Num e = strings.Replace s quote
  /\ (strconv.Err e = strconv.ErrSyntax \/ strconv.Err e = strconv.ErrRange)
  /\ fst (UnmarshalJSON t s) = t.
Proof.
  unfold UnmarshalJSON.
  pose proof (ParseInt_error (strings.Replace s quote)) as H.
  destruct (strconv.ParseInt _) as [q [e'|]]; cbn in *; [|discriminate].
  intros [= <-]. destruct (H e' eq_refl) as (? & ? & ?). auto.
Qed.

Lemma UnmarshalJSON_error_value_witness :
  exists e, snd (UnmarshalJSON time.zero "null") = Some e
            /\ strconv.Num e = "null"%string.
Proof.
  eexists. split; [reflexivity|].
  exact (proj1 (proj2 (UnmarshalJSON_error_value time.zero "null" _ eq_refl))).
Defined.

(** X15.  Input that cannot be a timestamp is refused: an input that is empty
    once its quotes are removed, and any input with a byte that is not a
    digit, a sign or a quote, such as [null], a fraction or an exponent. *)
Theorem UnmarshalJSON_rejects (t : jsonTime) (s : string) :
  (strings.Replace s quote = EmptyString -> snd (UnmarshalJSON t s) <> None)
  /\ (forall pre c post,
         s = (pre ++ String c post)%string ->
         isDigit c = false -> c <> "+"%char -> c <> "-"%char -> c <> quote ->
         snd (UnmarshalJSON t s) <> None).
Proof.
  split.
  - intros E. apply UnmarshalJSON_refuses. now rewrite E.
  - intros pre c post -> Hd Hp Hm Hq.
    apply UnmarshalJSON_refuses.
    rewrite Replace_app. cbn [strings.Replace].
    destruct (Ascii.eqb_spec c quote); [contradiction|].
    unfold decimalInt64. now rewrite decimalValue_junk.
Qed.

Lemma UnmarshalJSON_rejects_witness :
  snd (UnmarshalJSON time.zero "1.5e12") <> None.
Proof.
  apply (proj2 (UnmarshalJSON_rejects time.zero "1.5e12") "1"%string "."%char "5e12"%string);
    [reflexivity|reflexivity|discriminate..].
Defined.

(** X16.  Quotes carry no information for the decoder: a text between quotes
    decodes as the bare text does, and so does a text with a quote
    anywhere inside, down to the error returned. *)
Theorem UnmarshalJSON_quotes_ignored (t : jsonTime) (s s1 s2 : string) :
  UnmarshalJSON t (String quote (s ++ String quote EmptyString)) = UnmarshalJSON t s
  /\ UnmarshalJSON t (s1 ++ String quote s2) = UnmarshalJSON t (s1 ++ s2).
Proof.
  unfold UnmarshalJSON. rewrite Replace_quoted. split; [reflexivity|].
  rewrite !Replace_app. cbn [strings.Replace]. now rewrite Ascii.eqb_refl.
Qed.

(** X17.  A decode that succeeds stores a whole second within 9223372036854775
    seconds of the epoch, whatever the target held before. *)
Theorem UnmarshalJSON_result_bounds (t t' : jsonTime) (s : string) :
  snd (UnmarshalJSON t s) = None ->
  let r := fst (UnmarshalJSON t s) in
  time.nsec r = 0
  /\ -9223372036854775 <= time.toUnix r <= 9223372036854775
  /\ UnmarshalJSON t' s = (r, None).
Proof.
  unfold UnmarshalJSON.
  pose proof (ParseInt_spec (strings.Replace s quote)) as H.
  destruct (decimalValue (strings.Replace s quote)) as [v|].
  - destruct (int64.inRangeb v) eqn:R.
    + rewrite H. cbv zeta. cbn [fst snd]. intros _.
      rewrite Unix_whole. unfold time.toUnix. cbn [time.nsec time.unixSec].
      unfold int64.inRangeb, int64.min, int64.max in R.
      apply andb_true_iff in R. rewrite !Z.leb_le in R.
      pose proof (Z.quot_rem' v 1000) as Q.
      destruct (Z.le_ge_cases 0 v) as [Hv|Hv].
      * pose proof (Z.rem_bound_pos v 1000 Hv ltac:(lia)). repeat split; lia.
      * pose proof (Z.rem_bound_pos (- v) 1000 ltac:(lia) ltac:(lia)).
        pose proof (Z.rem_opp_l' v 1000). repeat split; lia.
    + destruct (strconv.ParseInt _) as [q [e|]]; cbn in *; congruence.
  - destruct (strconv.ParseInt _) as [q [e|]]; cbn in *; congruence.
Qed.

Lemma UnmarshalJSON_result_bounds_witness :
  time.nsec (fst (UnmarshalJSON time.zero "9223372036854775807")) = 0.
Proof.
  exact (proj1 (UnmarshalJSON_result_bounds time.zero time.zero
                  "9223372036854775807" eq_refl)).
Defined.

(** X18.  Decoding keeps the order of timestamps: of two int64 millisecond
    counts, the larger never decodes to the earlier instant. *)
Theorem UnmarshalJSON_monotone (t : jsonTime) (m1 m2 : Z) :
  int64.inRange m1 -> int64.inRange m2 -> m1 <= m2 ->
  let d1 := fst (UnmarshalJSON t (strconv.FormatInt m1)) in
  let d2 := fst (UnmarshalJSON t (strconv.FormatInt m2)) in
  time.nanos d1 <= time.nanos d2 /\ time.Before d2 d1 = false.
Proof.
  intros H1 H2 Hle. cbv zeta.
  rewrite !UnmarshalJSON_FormatInt by assumption. cbn [fst].
  rewrite !Unix_whole.
  pose proof (Z.quot_le_mono m1 m2 1000 ltac:(lia) Hle) as Q.
  split; [unfold time.nanos; cbn; lia|].
  unfold time.Before. cbn.
  destruct (Z.ltb_spec (m2 ÷ 1000) (m1 ÷ 1000)); [lia|].
  cbn. apply andb_false_r.
Qed.

Lemma UnmarshalJSON_monotone_witness :
  time.Before (fst (UnmarshalJSON time.zero "1503146442652"))
              (fst (UnmarshalJSON time.zero "1503144132413")) = false.
Proof.
  exact (proj2 (UnmarshalJSON_monotone time.zero 1503144132413 1503146442652
                  ltac:(by_computation) ltac:(by_computation) ltac:(lia))).
Defined.

(** X19.  [MarshalJSON] never fails, and what it prints is a decimal numeral
    without quotes that [strconv.ParseInt] reads back as the seconds of
    the instant; the nanoseconds of the instant leave no trace. *)
Theorem MarshalJSON_parses_back (t : jsonTime) :
  int64.inRange (time.toUnix (toTime t)) ->
  snd (MarshalJSON t) = None
  /\ strconv.ParseInt (fst (MarshalJSON t)) = (time.toUnix (toTime t), None)
  /\ strings.Replace (fst (MarshalJSON t)) quote = fst (MarshalJSON t)
  /\ MarshalJSON t = MarshalJSON (time.truncSecond t).
Proof.
  intros H. cbn [MarshalJSON fst snd].
  split; [reflexivity|]. split; [now apply ParseInt_FormatInt|].
  split; [apply Replace_FormatInt|reflexivity].
Qed.

Lemma MarshalJSON_parses_back_witness :
  strconv.ParseInt (fst (MarshalJSON (time.mkTime 1503146442 652000000)))
  = (1503146442, None).
Proof.
  exact (proj1 (proj2 (MarshalJSON_parses_back (time.mkTime 1503146442 652000000)
                         ltac:(by_computation)))).
Defined.

(** X20.  Two instants are printed alike exactly when they lie in the same
    second. *)
Theorem MarshalJSON_same_text_iff (t1 t2 : jsonTime) :
  int64.inRange (time.toUnix (toTime t1)) ->
  int64.inRange (time.toUnix (toTime t2)) ->
  (MarshalJSON t1 = MarshalJSON t2 <-> time.toUnix (toTime t1) = time.toUnix (toTime t2)).
Proof.
  intros H1 H2. unfold MarshalJSON. split.
  - intros [= E]. now apply FormatInt_inj.
  - now intros ->.
Qed.

Lemma MarshalJSON_same_text_iff_witness :
  MarshalJSON (time.mkTime 1503146442 0) = MarshalJSON (time.mkTime 1503146442 652000000).
Proof.
  apply MarshalJSON_same_text_iff; [by_computation|by_computation|reflexivity].
Defined.

Lemma quot_1000_fixed v : v ÷ 1000 = v <-> v = 0.
Proof.
  split; [|now intros ->].
  intros E. pose proof (Z.quot_rem' v 1000) as Q.
  destruct (Z.le_ge_cases 0 v) as [Hv|Hv].
  - pose proof (Z.rem_bound_pos v 1000 Hv ltac:(lia)). lia.
  - pose proof (Z.rem_bound_pos (- v) 1000 ltac:(lia) ltac:(lia)).
    pose proof (Z.rem_opp_l' v 1000). lia.
Qed.

(** X21.  Encoding an instant and decoding the text gives the instant back,
    cut to whole seconds, for the epoch second only: in general the
    seconds come back divided by 1000. *)
Theorem roundtrip_iff (t0 t : jsonTime) :
  int64.inRange (time.toUnix (toTime t)) ->
  UnmarshalJSON t0 (fst (MarshalJSON t))
  = (time.Unix (time.toUnix (toTime t) ÷ 1000) 0, None)
  /\ (fst (UnmarshalJSON t0 (fst (MarshalJSON t))) = time.truncSecond t
      <-> time.toUnix (toTime t) = 0).
Proof.
  intros H. rewrite (Marshal_then_Unmarshal t0 t H).
  split; [reflexivity|]. cbn [fst]. rewrite Unix_whole.
  unfold time.truncSecond, time.toUnix, toTime.
  rewrite <- quot_1000_fixed. split.
  - now intros [= E].
  - now intros ->.
Qed.

Lemma roundtrip_iff_witness :
  fst (UnmarshalJSON time.zero (fst (MarshalJSON (time.mkTime 0 7)))) = time.mkTime 0 0.
Proof.
  exact (proj2 (proj2 (roundtrip_iff time.zero (time.mkTime 0 7) ltac:(by_computation)))
           eq_refl).
Defined.

(** X22.  Decoding a millisecond count and encoding the result prints the
    count divided by 1000: the adapter reads milliseconds and writes
    seconds. *)
Theorem Unmarshal_then_Marshal (t : jsonTime) (m : Z) :
  int64.inRange m ->
  MarshalJSON (fst (UnmarshalJSON t (strconv.FormatInt m)))
  = (strconv.FormatInt (m ÷ 1000), None).
Proof.
  intros H. now rewrite UnmarshalJSON_FormatInt.
Qed.

Lemma Unmarshal_then_Marshal_witness :
  MarshalJSON (fst (UnmarshalJSON time.zero "1503146442652"))
  = ("1503146442"%string, None).
Proof.
  exact (Unmarshal_then_Marshal time.zero 1503146442652 ltac:(by_computation)).
Defined.

(** ** Order of the builds, and thresholds below zero *)

Lemma filter_nil_perm (p : build -> bool) (l l' : list build) :
  Permutation l l' -> List.filter p l = [] -> List.filter p l' = [].
Proof.
  intros HP. rewrite !filter_nil_iff. intros H b Hb.
  apply H. apply Permutation_in with (l := l'); [now symmetry|exact Hb].
Qed.

(** X23.  The order in which the builds are delivered decides which build the
    message names, never the verdict: two decoders that leave the same
    builds in different orders give the same status. *)
Theorem run_status_order_independent
    (ParseArgs : list string -> Opts + string)
    (Decode Decode' : string -> builds -> builds * option string)
    (args : list string) (o : Opts) (resp : Response) (w : World) :
  ParseArgs args = inl o ->
  endpoint w (requestURL o) = inl resp ->
  Permutation (Builds (fst (Decode (Body resp) zeroBuilds)))
              (Builds (fst (Decode' (Body resp) zeroBuilds))) ->
  exists c c',
    fst (run ParseArgs Decode args w) = Return c
    /\ fst (run ParseArgs Decode' args w) = Return c'
    /\ checkers.St c = checkers.St c'.
Proof.
  intros E1 E2 HP.
  rewrite (run_fetched ParseArgs Decode args o resp w E1 E2).
  rewrite (run_fetched ParseArgs Decode' args o resp w E1 E2). cbv zeta.
  set (l := Builds (fst (Decode (Body resp) zeroBuilds))) in *.
  set (l' := Builds (fst (Decode' (Body resp) zeroBuilds))) in *.
  pose proof (filter_nil_perm (tooLong (clock w (ticks w)) (criticalThreshold o)) l l' HP) as C1.
  pose proof (filter_nil_perm (tooLong (clock w (ticks w)) (criticalThreshold o)) l' l
                ltac:(now symmetry)) as C2.
  pose proof (filter_nil_perm (tooLong (clock w (S (ticks w))) (warningThreshold o)) l l' HP) as W1.
  pose proof (filter_nil_perm (tooLong (clock w (S (ticks w))) (warningThreshold o)) l' l
                ltac:(now symmetry)) as W2.
  destruct (List.filter (tooLong (clock w (ticks w)) _) l) as [|a ?];
    destruct (List.filter (tooLong (clock w (ticks w)) _) l') as [|a' ?];
    try (specialize (C1 eq_refl); discriminate);
    try (specialize (C2 eq_refl); discriminate);
    [|do 2 eexists; repeat split].
  destruct (List.filter (tooLong (clock w (S (ticks w))) _) l) as [|a ?];
    destruct (List.filter (tooLong (clock w (S (ticks w))) _) l') as [|a' ?];
    try (specialize (W1 eq_refl); discriminate);
    try (specialize (W2 eq_refl); discriminate);
    do 2 eexists; repeat split.
Qed.

Lemma run_status_order_independent_witness :
  exists c c',
    fst (run Scenario.parse (Scenario.delivers (Scenario.A ++ Scenario.B)) [] Scenario.up)
    = Return c
    /\ fst (run Scenario.parse (Scenario.delivers (Scenario.B ++ Scenario.A)) [] Scenario.up)
       = Return c'
    /\ checkers.St c = checkers.St c'.
Proof.
  apply (run_status_order_independent _ _ _ _ Scenario.opts (mkResponse 200 EmptyString));
    [reflexivity|reflexivity|].
  apply perm_swap.
Defined.

(** X24.  A critical threshold below zero, configured as such or reached by
    the wrap-around of a large number of seconds, makes every unfinished
    build that did not start after the clock reading CRITICAL. *)
Theorem run_negative_critical_threshold
    (ParseArgs : list string -> Opts + string)
    (Decode : string -> builds -> builds * option string)
    (args : list string) (o : Opts) (resp : Response) (w : World) (b : build) :
  ParseArgs args = inl o ->
  endpoint w (requestURL o) = inl resp ->
  criticalThreshold o < 0 ->
  In b (Builds (fst (Decode (Body resp) zeroBuilds))) ->
  Result b = None ->
  time.wf (clock w (ticks w)) -> time.wf (toTime (Timestamp b)) ->
  time.nanos (toTime (Timestamp b)) <= time.nanos (clock w (ticks w)) ->
  exists c, fst (run ParseArgs Decode args w) = Return c
            /\ checkers.St c = checkers.CRITICAL.
Proof.
  intros E1 E2 HT Hb Hr Hn Hwf Hle.
  rewrite (run_fetched ParseArgs Decode args o resp w E1 E2). cbv zeta.
  destruct (List.filter (tooLong (clock w (ticks w)) _) _) as [|c ?] eqn:Ec;
    [|eexists; split; reflexivity].
  exfalso. rewrite filter_nil_iff in Ec. specialize (Ec b Hb).
  apply tooLong_false in Ec. destruct Ec as [Ec|Ec]; [congruence|].
  pose proof (Sub_not_negative _ _ Hn Hwf Hle). lia.
Qed.

Lemma run_negative_critical_threshold_witness :
  let o := mkOpts "http" "localhost" 8080 "sleep30" 10 60 9223372037 in
  exists c,
    fst (run (fun _ => inl o) (Scenario.delivers [mkBuild 7 None (Scenario.started 1)])
           [] Scenario.up) = Return c
    /\ checkers.St c = checkers.CRITICAL.
Proof.
  cbv zeta.
  apply (run_negative_critical_threshold _ _ _
           (mkOpts "http" "localhost" 8080 "sleep30" 10 60 9223372037)
           (mkResponse 200 EmptyString) _ (mkBuild 7 None (Scenario.started 1)));
    try reflexivity; try by_computation.
  left. reflexivity.
Defined.
